(** * dns2tcp: the DNS wire-format decoder of [dns2tcp.go]

    A shallow embedding of [getDomainName], [parseRR] and [parseDNSMsg]
    and the properties of the decoder that the specification states.

    Conventions of the embedding:
    - a Go [[]byte] is a [list byte]; [len], indexing and slicing are the
      checked operations of Go, a failed check being a run-time panic;
    - Go's [int] is [Z].  Every [int] the decoder computes lies between 0
      and [len(data) + 65535 + 12], far from the 64-bit limits, so the
      wrap-around of [int] never comes into play; [uint8], [uint16] and
      [uint32] values are the non-negative [Z] below 2^8, 2^16 and 2^32,
      and the decoder only shifts them right, masks them and ors bytes
      together, which stays in range;
    - a Go [error] result is an [option error] ([None] is [nil]);
    - the [for] loop of [getDomainName] is a body function run by a fuelled
      iterator; [nameLoop_enough_fuel] shows that the fuel handed to it by
      [getDomainName] is never used up. *)

From Stdlib Require Import ZArith Lia.
From Stdlib.Strings Require Import String Ascii Byte.
From stdpp Require Import base list.

Local Open Scope string_scope.
Local Open Scope list_scope.
Local Open Scope Z_scope.

(** ** Outcomes of running Go code *)

Inductive exec (A : Type) : Type :=
| Ok (a : A)
| Panic
| OutOfFuel.
Arguments Ok {A} a.
Arguments Panic {A}.
Arguments OutOfFuel {A}.

#[global] Instance exec_ret : MRet exec := fun _ a => Ok a.
#[global] Instance exec_bind : MBind exec := fun _ _ f m =>
  match m with
  | Ok a => f a
  | Panic => Panic
  | OutOfFuel => OutOfFuel
  end.

(** ** Byte slices *)

Module Slice.

Definition len {A} (s : list A) : Z := Z.of_nat (length s).

(** [s[i]]: [None] is Go's index-out-of-range panic. *)
Definition index {A} (s : list A) (i : Z) : option A :=
  if (0 <=? i) && (i <? len s) then s !! Z.to_nat i else None.

(** [s[lo:hi]] *)
Definition slice {A} (s : list A) (lo hi : Z) : option (list A) :=
  if (0 <=? lo) && (lo <=? hi) && (hi <=? len s)
  then Some (take (Z.to_nat (hi - lo)) (drop (Z.to_nat lo) s))
  else None.

(** [s[lo:]] *)
Definition slice_from {A} (s : list A) (lo : Z) : option (list A) :=
  slice s lo (len s).

(** [s[i] = f(s[i])], the in-place update of one element. *)
Definition update {A} (s : list A) (i : Z) (f : A -> A) : option (list A) :=
  if (0 <=? i) && (i <? len s) then Some (alter f (Z.to_nat i) s) else None.

(** [make([]T, n)] for a zero value [z] *)
Definition make {A} (z : A) (n : Z) : list A := replicate (Z.to_nat n) z.

End Slice.
Import Slice.

(** A panic of the slice operations becomes a panic of the program. *)
Definition checked {A} (o : option A) : exec A :=
  match o with
  | Some a => Ok a
  | None => Panic
  end.

Definition uint8 (b : byte) : Z := Z.of_N (Byte.to_N b).

(** [binary.BigEndian.Uint16(b)]: panics unless [len(b) >= 2]. *)
Definition Uint16 (b : list byte) : exec Z :=
  match b with
  | b0 :: b1 :: _ => Ok (Z.lor (uint8 b1) (Z.shiftl (uint8 b0) 8))
  | _ => Panic
  end.

(** [binary.BigEndian.Uint32(b)]: panics unless [len(b) >= 4]. *)
Definition Uint32 (b : list byte) : exec Z :=
  match b with
  | b0 :: b1 :: b2 :: b3 :: _ =>
      Ok (Z.lor (Z.lor (Z.lor (uint8 b3) (Z.shiftl (uint8 b2) 8))
                       (Z.shiftl (uint8 b1) 16))
                (Z.shiftl (uint8 b0) 24))
  | _ => Panic
  end.

(** [binary.BigEndian.Uint16(data[cursor:])] *)
Definition readUint16 (data : list byte) (cursor : Z) : exec Z :=
  checked (slice_from data cursor) ≫= Uint16.

(** [binary.BigEndian.Uint32(data[cursor:])] *)
Definition readUint32 (data : list byte) (cursor : Z) : exec Z :=
  checked (slice_from data cursor) ≫= Uint32.

(** ** Errors *)

Inductive error : Type :=
| ErrEndOfBuffer
| ErrLabelExceeds
| ErrTooManyPointers
| ErrIncompletePointer
| ErrInvalidPointerDestination
| ErrInvalidLabelType
| ErrRRHeader
| ErrRdata
| ErrHeaderTooShort
| ErrEOFQuestions
| ErrQtypeQclass
| ErrEOFAnswers
| ErrEOFAuthority
| ErrEOFAdditional.

(** The text each error is created with ([errors.New]). *)
Definition error_text (e : error) : string :=
  match e with
  | ErrEndOfBuffer => "reached end of data buffer"
  | ErrLabelExceeds => "label length exceeds data buffer"
  | ErrTooManyPointers => "too many compression pointers"
  | ErrIncompletePointer => "incomplete pointer offset"
  | ErrInvalidPointerDestination => "invalid pointer destination"
  | ErrInvalidLabelType => "invalid label type"
  | ErrRRHeader => "insufficient data for RR header"
  | ErrRdata => "rdata length exceeds data buffer"
  | ErrHeaderTooShort => "data too short for DNS header"
  | ErrEOFQuestions => "EOF parsing questions"
  | ErrQtypeQclass => "insufficient data for Qtype/Qclass"
  | ErrEOFAnswers => "EOF parsing answers"
  | ErrEOFAuthority => "EOF parsing authority RRs"
  | ErrEOFAdditional => "EOF parsing additional RRs"
  end.

#[global] Instance error_eq_dec : EqDecision error.
Proof. solve_decision. Defined.

(** ** Data model *)

Record dnsMsgHdr : Type := {
  id : Z;
  response : bool;
  opcode : Z;
  authoritative : bool;
  truncated : bool;
  recursion_desired : bool;
  recursion_available : bool;
  rcode : Z;
  question_num : Z;
  answer_num : Z;
  authority_num : Z;
  additional_num : Z
}.

Record dnsQuestion : Type := {
  qName : string;
  Qtype : Z;
  Qclass : Z
}.

Record dnsRR : Type := {
  Name : string;
  Rrtype : Z;
  Class : Z;
  Ttl : Z;
  Rdlength : Z;
  Data : list byte
}.

Record dnsMsg : Type := {
  hdr : dnsMsgHdr;
  question : list dnsQuestion;
  answer : list dnsRR;
  ns : list dnsRR;
  extra : list dnsRR
}.

(** Zero values ([var msg dnsMsg], [var rr dnsRR], elements of [make]). *)
Definition zeroHdr : dnsMsgHdr :=
  {| id := 0; response := false; opcode := 0; authoritative := false;
     truncated := false; recursion_desired := false;
     recursion_available := false; rcode := 0; question_num := 0;
     answer_num := 0; authority_num := 0; additional_num := 0 |}.
Definition zeroQuestion : dnsQuestion :=
  {| qName := ""; Qtype := 0; Qclass := 0 |}.
Definition zeroRR : dnsRR :=
  {| Name := ""; Rrtype := 0; Class := 0; Ttl := 0; Rdlength := 0; Data := [] |}.
Definition zeroMsg : dnsMsg :=
  {| hdr := zeroHdr; question := []; answer := []; ns := []; extra := [] |}.

Definition Itob (x : Z) : bool := negb (x =? 0).

(** ** getDomainName *)

(** The local variables of [getDomainName] that live across iterations. *)
Record nameState : Type := {
  currentReadPos : Z;
  pointerFollowCount : Z;
  posAfterFirstPointer : Z;
  labels : list string
}.

(** What one pass through the body of the [for] loop does. *)
Inductive iteration : Type :=
| Next (st : nameState)
| Break (st : nameState)
| Return (r : string * Z * option error)
| Crash.

Definition sentinel : string := "Too many compression pointers".

Definition pointerDestination (labelSize secondByte : Z) : Z :=
  Z.lor (Z.shiftl (Z.land labelSize 0x3F) 8) secondByte.

Definition loopBody (data : list byte) (initialCursor : Z) (st : nameState)
  : iteration :=
  if len data <=? currentReadPos st
  then Return ("", initialCursor, Some ErrEndOfBuffer)
  else
    match index data (currentReadPos st) with
    | None => Crash
    | Some b =>
      let labelSize := uint8 b in
      let pos := currentReadPos st + 1 in
      if labelSize =? 0
      then Break {| currentReadPos := pos;
                    pointerFollowCount := pointerFollowCount st;
                    posAfterFirstPointer := posAfterFirstPointer st;
                    labels := labels st |}
      else if Z.land labelSize 0xC0 =? 0x00 then
        if len data <? pos + labelSize
        then Return ("", initialCursor, Some ErrLabelExceeds)
        else
          match slice data pos (pos + labelSize) with
          | None => Crash
          | Some label =>
            Next {| currentReadPos := pos + labelSize;
                    pointerFollowCount := pointerFollowCount st;
                    posAfterFirstPointer := posAfterFirstPointer st;
                    labels := labels st ++ [string_of_list_byte label] |}
          end
      else if Z.land labelSize 0xC0 =? 0xC0 then
        let after :=
          if pointerFollowCount st =? 0 then pos + 1
          else posAfterFirstPointer st in
        let count := pointerFollowCount st + 1 in
        if 10 <? count
        then
          let retCursor := if after =? 0 then initialCursor else after in
          Return (sentinel, retCursor, Some ErrTooManyPointers)
        else if len data <=? pos
        then Return ("", initialCursor, Some ErrIncompletePointer)
        else
          match index data pos with
          | None => Crash
          | Some secondByte =>
            let dest := pointerDestination labelSize (uint8 secondByte) in
            if (dest <? 0) || (len data <=? dest)
            then Return ("", initialCursor, Some ErrInvalidPointerDestination)
            else Next {| currentReadPos := dest;
                         pointerFollowCount := count;
                         posAfterFirstPointer := after;
                         labels := labels st |}
          end
      else Return ("", initialCursor, Some ErrInvalidLabelType)
    end.

(** The code after the loop, reached by [break]. *)
Definition afterLoop (st : nameState) : string * Z * option error :=
  let name := String.concat "." (labels st) in
  if 0 <? pointerFollowCount st
  then (name, posAfterFirstPointer st, None)
  else (name, currentReadPos st, None).

Fixpoint nameLoop (data : list byte) (initialCursor : Z) (fuel : nat)
    (st : nameState) : exec (string * Z * option error) :=
  match fuel with
  | O => OutOfFuel
  | S fuel' =>
    match loopBody data initialCursor st with
    | Next st' => nameLoop data initialCursor fuel' st'
    | Break st' => Ok (afterLoop st')
    | Return r => Ok r
    | Crash => Panic
    end
  end.

Definition initState (initialCursor : Z) : nameState :=
  {| currentReadPos := initialCursor; pointerFollowCount := 0;
     posAfterFirstPointer := 0; labels := [] |}.

Definition nameFuel (data : list byte) : nat := 12 * (length data + 1).

Definition getDomainName (data : list byte) (initialCursor : Z)
  : exec (string * Z * option error) :=
  nameLoop data initialCursor (nameFuel data) (initState initialCursor).

(** ** parseRR *)

(** [copy(dst, src)]: the first [min(len(dst), len(src))] bytes of [dst]
    are overwritten. *)
Definition copy (dst src : list byte) : list byte :=
  take (length dst) src ++ drop (length src) dst.

Definition parseRR (data : list byte) (cursor : Z)
  : exec (dnsRR * Z * option error) :=
  '(name, cursor, err) ← getDomainName data cursor;
  let rr := {| Name := name; Rrtype := 0; Class := 0; Ttl := 0;
               Rdlength := 0; Data := [] |} in
  match err with
  | Some e => Ok (rr, cursor, Some e)
  | None =>
    if len data <? cursor + 10
    then Ok (rr, cursor, Some ErrRRHeader)
    else
      rrtype ← readUint16 data cursor;
      let cursor := cursor + 2 in
      class ← readUint16 data cursor;
      let cursor := cursor + 2 in
      ttl ← readUint32 data cursor;
      let cursor := cursor + 4 in
      rdlength ← readUint16 data cursor;
      let cursor := cursor + 2 in
      let rr := {| Name := name; Rrtype := rrtype; Class := class;
                   Ttl := ttl; Rdlength := rdlength; Data := [] |} in
      if len data <? cursor + rdlength
      then Ok (rr, cursor, Some ErrRdata)
      else
        src ← checked (slice data cursor (cursor + rdlength));
        let rdata := copy (make x00 rdlength) src in
        Ok ({| Name := name; Rrtype := rrtype; Class := class; Ttl := ttl;
               Rdlength := rdlength; Data := rdata |},
            cursor + rdlength, None)
  end.

(** ** parseDNSMsg *)

(** Lines 213-226: the twelve header bytes. *)
Definition parseHeader (data : list byte) : exec dnsMsgHdr :=
  msgid ← Uint16 data;
  dnsmisc ← readUint16 data 2;
  qd ← readUint16 data 4;
  an ← readUint16 data 6;
  au ← readUint16 data 8;
  ad ← readUint16 data 10;
  Ok {| id := msgid;
        response := true;
        opcode := Z.land (Z.shiftr dnsmisc 11) 0x000F;
        authoritative := Itob (Z.shiftr (Z.land dnsmisc 0x0400) 10);
        truncated := Itob (Z.shiftr (Z.land dnsmisc 0x0200) 9);
        recursion_desired := Itob (Z.shiftr (Z.land dnsmisc 0x0100) 8);
        recursion_available := Itob (Z.shiftr (Z.land dnsmisc 0x00F0) 7);
        rcode := Z.land dnsmisc 0x000F;
        question_num := qd;
        answer_num := an;
        authority_num := au;
        additional_num := ad |}.

(** How a section loop ends: by an early [return msg, err], or by running
    to its end with the filled slice and the cursor after it. *)
Inductive section (A : Type) : Type :=
| Failed (e : error)
| Parsed (items : list A) (cursor : Z).
Arguments Failed {A} e.
Arguments Parsed {A} items cursor.

Definition setName (name : string) (q : dnsQuestion) : dnsQuestion :=
  {| qName := name; Qtype := Qtype q; Qclass := Qclass q |}.
Definition setQtype (v : Z) (q : dnsQuestion) : dnsQuestion :=
  {| qName := qName q; Qtype := v; Qclass := Qclass q |}.
Definition setQclass (v : Z) (q : dnsQuestion) : dnsQuestion :=
  {| qName := qName q; Qtype := Qtype q; Qclass := v |}.

(** [for i := 0; i < int(msg.question_num); i++], with [todo] the number
    of iterations still to run. *)
Fixpoint questionLoop (data : list byte) (todo : nat) (i cursor : Z)
    (question : list dnsQuestion) : exec (section dnsQuestion) :=
  match todo with
  | O => Ok (Parsed question cursor)
  | S todo' =>
    if len data <=? cursor then Ok (Failed ErrEOFQuestions)
    else
      '(name, cursor, err) ← getDomainName data cursor;
      question ← checked (update question i (setName name));
      match err with
      | Some e => Ok (Failed e)
      | None =>
        if len data <? cursor + 4 then Ok (Failed ErrQtypeQclass)
        else
          qtype ← readUint16 data cursor;
          question ← checked (update question i (setQtype qtype));
          let cursor := cursor + 2 in
          qclass ← readUint16 data cursor;
          question ← checked (update question i (setQclass qclass));
          let cursor := cursor + 2 in
          questionLoop data todo' (i + 1) cursor question
      end
  end.

(** The loops over the answer, authority and additional records are the
    same code up to the error of their end-of-data check, [eof]. *)
Fixpoint rrLoop (data : list byte) (eof : error) (todo : nat) (i cursor : Z)
    (rrs : list dnsRR) : exec (section dnsRR) :=
  match todo with
  | O => Ok (Parsed rrs cursor)
  | S todo' =>
    if len data <=? cursor then Ok (Failed eof)
    else
      '(rr, cursor, err) ← parseRR data cursor;
      rrs ← checked (update rrs i (fun _ => rr));
      match err with
      | Some e => Ok (Failed e)
      | None => rrLoop data eof todo' (i + 1) cursor rrs
      end
  end.

(** [if n > 0 { rrs := make([]dnsRR, n); for ... ; msg.x = rrs }]; when
    [n] is 0 the field keeps its nil value. *)
Definition rrSection (data : list byte) (eof : error) (n cursor : Z)
  : exec (section dnsRR) :=
  if 0 <? n
  then rrLoop data eof (Z.to_nat n) 0 cursor (make zeroRR n)
  else Ok (Parsed [] cursor).

Definition parseDNSMsg (data : list byte) : exec (dnsMsg * option error) :=
  if len data <? 12 then Ok (zeroMsg, Some ErrHeaderTooShort)
  else
    h ← parseHeader data;
    let msg := {| hdr := h; question := []; answer := []; ns := [];
                  extra := [] |} in
    q ← questionLoop data (Z.to_nat (question_num h)) 0 12
          (make zeroQuestion (question_num h));
    match q with
    | Failed e => Ok (msg, Some e)
    | Parsed qs cursor =>
      let msg := {| hdr := h; question := qs; answer := []; ns := [];
                    extra := [] |} in
      a ← rrSection data ErrEOFAnswers (answer_num h) cursor;
      match a with
      | Failed e => Ok (msg, Some e)
      | Parsed ans cursor =>
        let msg := {| hdr := h; question := qs; answer := ans; ns := [];
                      extra := [] |} in
        n ← rrSection data ErrEOFAuthority (authority_num h) cursor;
        match n with
        | Failed e => Ok (msg, Some e)
        | Parsed nss cursor =>
          let msg := {| hdr := h; question := qs; answer := ans; ns := nss;
                        extra := [] |} in
          x ← rrSection data ErrEOFAdditional (additional_num h) cursor;
          match x with
          | Failed e => Ok (msg, Some e)
          | Parsed exs _ =>
            Ok ({| hdr := h; question := qs; answer := ans; ns := nss;
                   extra := exs |}, None)
          end
        end
      end
    end.

(** ** The reference message of the test suite *)

Definition dnsMessageBytes : list byte :=
  [ x12; x34;  x81; x80;  x00; x01;  x00; x02;  x00; x00;  x00; x00;
    (* test.example.com *)
    x04; x74; x65; x73; x74;
    x07; x65; x78; x61; x6d; x70; x6c; x65;
    x03; x63; x6f; x6d;
    x00;
    x00; x01;  x00; x01;
    (* sub1.test.example.com *)
    x04; x73; x75; x62; x31;
    x04; x74; x65; x73; x74;
    x07; x65; x78; x61; x6d; x70; x6c; x65;
    x03; x63; x6f; x6d;
    x00;
    x00; x01;  x00; x01;  x00; x00; x00; xe1;  x00; x04;
    xc0; x00; x02; x01;
    (* sub2 + pointer to offset 12 *)
    x04; x73; x75; x62; x32;
    xc0; x0c;
    x00; x01;  x00; x01;  x00; x00; x00; xe1;  x00; x04;
    xc0; x00; x02; x02 ].

(** What the test expects [parseDNSMsg] to make of [dnsMessageBytes]. *)
Definition referenceMessage : dnsMsg :=
  {| hdr := {| id := 0x1234; response := true; opcode := 0;
               authoritative := false; truncated := false;
               recursion_desired := true; recursion_available := true;
               rcode := 0; question_num := 1; answer_num := 2;
               authority_num := 0; additional_num := 0 |};
     question := [ {| qName := "test.example.com"; Qtype := 1;
                      Qclass := 1 |} ];
     answer := [ {| Name := "sub1.test.example.com"; Rrtype := 1;
                    Class := 1; Ttl := 225; Rdlength := 4;
                    Data := [xc0; x00; x02; x01] |};
                 {| Name := "sub2.test.example.com"; Rrtype := 1;
                    Class := 1; Ttl := 225; Rdlength := 4;
                    Data := [xc0; x00; x02; x02] |} ];
     ns := [];
     extra := [] |}.

(** * Notions used to state the properties *)

(** Pointer hops still allowed, then bytes still ahead: every iteration
    that goes round again lowers this number. *)
Definition measure (data : list byte) (st : nameState) : nat :=
  Z.to_nat (Z.max 0 (11 - pointerFollowCount st) * (len data + 1)
            + (len data - currentReadPos st)).

(** The loop run from any state, with fuel to spare. *)
Definition run (data : list byte) (ic : Z) (st : nameState)
  : exec (string * Z * option error) :=
  nameLoop data ic (S (measure data st)) st.

Definition finish (it : iteration) (k : nameState -> exec (string * Z * option error))
  : exec (string * Z * option error) :=
  match it with
  | Next st' => k st'
  | Break st' => Ok (afterLoop st')
  | Return r => Ok r
  | Crash => Panic
  end.

(** [reaches data ic st st']: the loop, being in state [st] at the top of
    an iteration, is in state [st'] at the top of a later one. *)
Inductive reaches (data : list byte) (ic : Z) (st : nameState)
  : nameState -> Prop :=
| reaches_here : reaches data ic st st
| reaches_next st1 st2 :
    reaches data ic st st1 -> loopBody data ic st1 = Next st2 ->
    reaches data ic st st2.

(** The length byte at offset [p] has its two top bits set. *)
Definition isPointerAt (data : list byte) (p : Z) : bool :=
  match index data p with
  | Some b => Z.land (uint8 b) 0xC0 =? 0xC0
  | None => false
  end.

(** The 14-bit destination of the pointer whose first byte is at [p]. *)
Definition destinationAt (data : list byte) (p : Z) : option Z :=
  match index data p, index data (p + 1) with
  | Some b, Some b2 => Some (pointerDestination (uint8 b) (uint8 b2))
  | _, _ => None
  end.

(** The decoding started at [ic] comes to offset [p] before it has followed
    any pointer, and the token at [p] is a pointer: the first pointer of the
    name. *)
Definition firstPointer (data : list byte) (ic p : Z) : Prop :=
  exists st, reaches data ic (initState ic) st /\
             pointerFollowCount st = 0 /\ currentReadPos st = p /\
             isPointerAt data p = true.

(** [decodes data ic ls off hops]: the decoding started at [ic] comes to a
    terminating zero byte, having read the labels [ls] and followed [hops]
    pointers; [off] is the offset the code after the loop then returns. *)
Definition decodes (data : list byte) (ic : Z) (ls : list string)
    (off hops : Z) : Prop :=
  exists st,
    reaches data ic (initState ic) st /\
    (exists b, index data (currentReadPos st) = Some b /\ uint8 b = 0) /\
    labels st = ls /\ pointerFollowCount st = hops /\
    off = (if 0 <? hops then posAfterFirstPointer st
           else currentReadPos st + 1).

(** The state [st] as it is when the same bytes are read after the labels
    [pre] have been read and [k] pointers followed, the first of them
    ending at [after]. *)
Definition graft (pre : list string) (k after : Z) (st : nameState)
  : nameState :=
  {| currentReadPos := currentReadPos st;
     pointerFollowCount := pointerFollowCount st + k;
     posAfterFirstPointer :=
       if k =? 0 then posAfterFirstPointer st else after;
     labels := pre ++ labels st |}.

(** The wire form of a name, as the decoder reads it: every label behind
    a byte holding its length, then, for a name that is not compressed, a
    zero byte. *)
Definition lengthByte (l : list byte) : byte :=
  match Byte.of_N (N.of_nat (length l)) with
  | Some b => b
  | None => x00
  end.

Fixpoint wireLabels (ls : list (list byte)) : list byte :=
  match ls with
  | [] => []
  | l :: ls' => lengthByte l :: l ++ wireLabels ls'
  end.

Definition wireName (ls : list (list byte)) : list byte :=
  wireLabels ls ++ [x00].

(** A question as the question loop leaves it in the slice: its name
    decoded at some offset, its type and class read behind the name. *)
Definition parsedQuestion (data : list byte) (q : dnsQuestion) : Prop :=
  exists c c',
    getDomainName data c = Ok (qName q, c', None) /\
    c' + 4 <= len data /\
    readUint16 data c' = Ok (Qtype q) /\
    readUint16 data (c' + 2) = Ok (Qclass q).

(** A record that [parseRR] returned without error at some offset. *)
Definition parsedRR (data : list byte) (rr : dnsRR) : Prop :=
  exists c c', parseRR data c = Ok (rr, c', None).

(** The errors that [getDomainName] creates, and those that [parseRR]
    creates or hands on. *)
Definition nameError (e : error) : bool :=
  match e with
  | ErrEndOfBuffer | ErrLabelExceeds | ErrTooManyPointers
  | ErrIncompletePointer | ErrInvalidPointerDestination
  | ErrInvalidLabelType => true
  | _ => false
  end.

Definition recordError (e : error) : bool :=
  match e with
  | ErrRRHeader | ErrRdata => true
  | _ => nameError e
  end.

(** The errors that [parseDNSMsg] hands on or creates behind the header. *)
Definition sectionError (e : error) : bool :=
  match e with
  | ErrEOFQuestions | ErrQtypeQclass | ErrEOFAnswers | ErrEOFAuthority
  | ErrEOFAdditional => true
  | _ => recordError e
  end.

(** Ten pointers, each to the next, then one that points outside. *)
Definition elevenPointers : list byte :=
  [ xc0; x02;  xc0; x04;  xc0; x06;  xc0; x08;  xc0; x0a;
    xc0; x0c;  xc0; x0e;  xc0; x10;  xc0; x12;  xc0; x14;
    xc0; xff ].

(** The query for test.example.com, type A, class IN, as a resolver
    sends it: flags 0x0100 (a query, recursion desired). *)
Definition dnsQueryBytes : list byte :=
  [ x12; x34;  x01; x00;  x00; x01;  x00; x00;  x00; x00;  x00; x00;
    x04; x74; x65; x73; x74;
    x07; x65; x78; x61; x6d; x70; x6c; x65;
    x03; x63; x6f; x6d;
    x00;
    x00; x01;  x00; x01 ].

(** * Properties *)

(** ** Slices and bytes *)

Lemma len_nonneg {A} (s : list A) : 0 <= len s.
Proof. unfold len. lia. Qed.

Lemma uint8_range (b : byte) : 0 <= uint8 b < 256.
Proof.
  unfold uint8. pose proof (Byte.to_N_bounded b). lia.
Qed.

Lemma index_Some_inv {A} (s : list A) (i : Z) (x : A) :
  index s i = Some x -> 0 <= i < len s.
Proof.
  unfold index. destruct (0 <=? i) eqn:H0; destruct (i <? len s) eqn:H1;
    simpl; try discriminate. lia.
Qed.

Lemma index_in_range {A} (s : list A) (i : Z) :
  0 <= i < len s -> exists x, index s i = Some x.
Proof.
  intros Hi. unfold index.
  replace (0 <=? i) with true by lia. replace (i <? len s) with true by lia.
  simpl. destruct (lookup_lt_is_Some_2 s (Z.to_nat i)) as [x Hx].
  - unfold len in Hi. lia.
  - eauto.
Qed.

Lemma slice_in_range {A} (s : list A) (lo hi : Z) :
  0 <= lo <= hi -> hi <= len s ->
  slice s lo hi = Some (take (Z.to_nat (hi - lo)) (drop (Z.to_nat lo) s)).
Proof.
  intros H1 H2. unfold slice.
  replace (0 <=? lo) with true by lia. replace (lo <=? hi) with true by lia.
  replace (hi <=? len s) with true by lia. reflexivity.
Qed.

Lemma slice_length {A} (s t : list A) (lo hi : Z) :
  slice s lo hi = Some t -> len t = hi - lo.
Proof.
  unfold slice.
  destruct (0 <=? lo) eqn:H0; destruct (lo <=? hi) eqn:H1;
    destruct (hi <=? len s) eqn:H2; simpl; try discriminate.
  intros [= <-]. unfold len in *. rewrite length_take, length_drop. lia.
Qed.

Lemma update_in_range {A} (s : list A) (i : Z) (f : A -> A) :
  0 <= i < len s -> update s i f = Some (alter f (Z.to_nat i) s).
Proof.
  intros Hi. unfold update.
  replace (0 <=? i) with true by lia. replace (i <? len s) with true by lia.
  reflexivity.
Qed.

Lemma make_length {A} (z : A) (n : Z) : 0 <= n -> len (make z n) = n.
Proof. intros Hn. unfold len, make. rewrite length_replicate. lia. Qed.

(** ** Termination of the name loop *)

(** Case analysis of an equation [loopBody ... = _], outermost test first. *)
Ltac body_step H :=
  cbv zeta in H;
  lazymatch type of H with
  | (if ?c then _ else _) = _ => destruct c eqn:?
  | (match ?o with Some _ => _ | None => _ end) = _ => destruct o eqn:?
  end.
Ltac body_cases H :=
  unfold loopBody in H; repeat (body_step H; try discriminate H).

Lemma loopBody_Next_measure data ic st st' :
  loopBody data ic st = Next st' -> (measure data st' < measure data st)%nat.
Proof.
  intros H. pose proof (len_nonneg data) as Hl. body_cases H.
  - (* label *)
    injection H as <-. unfold measure; simpl.
    match goal with Hi : index _ _ = Some ?b |- _ =>
      apply index_Some_inv in Hi; pose proof (uint8_range b) end.
    set (X := Z.max 0 (11 - pointerFollowCount st) * (len data + 1)).
    assert (0 <= X) by (subst X; nia). lia.
  - (* pointer *)
    injection H as <-. unfold measure; simpl.
    match goal with Hi : index _ (currentReadPos st) = Some _ |- _ =>
      apply index_Some_inv in Hi end.
    set (d := pointerDestination _ _) in *.
    assert (0 <= d < len data) by lia.
    assert (pointerFollowCount st <= 9) by lia.
    rewrite !Z.max_r by lia. nia.
Qed.

Lemma nameLoop_enough_fuel data ic fuel st :
  (measure data st < fuel)%nat -> nameLoop data ic fuel st <> OutOfFuel.
Proof.
  revert st. induction fuel as [|fuel IH]; intros st Hm; [lia|].
  simpl. destruct (loopBody data ic st) as [st'| | |] eqn:Hb; try discriminate.
  apply IH. apply loopBody_Next_measure in Hb. lia.
Qed.

Lemma nameLoop_fuel_irrelevant data ic f1 f2 st :
  (measure data st < f1)%nat -> (measure data st < f2)%nat ->
  nameLoop data ic f1 st = nameLoop data ic f2 st.
Proof.
  revert f2 st. induction f1 as [|f1 IH]; intros f2 st H1 H2; [lia|].
  destruct f2 as [|f2]; [lia|].
  simpl. destruct (loopBody data ic st) as [st'| | |] eqn:Hb; try reflexivity.
  apply loopBody_Next_measure in Hb. apply IH; lia.
Qed.

Lemma run_unfold data ic st :
  run data ic st = finish (loopBody data ic st) (run data ic).
Proof.
  unfold run at 1. simpl.
  destruct (loopBody data ic st) as [st'| | |] eqn:Hb; try reflexivity.
  simpl. apply nameLoop_fuel_irrelevant; [|lia].
  apply loopBody_Next_measure in Hb. lia.
Qed.

Lemma nameLoop_run data ic fuel st :
  (measure data st < fuel)%nat -> nameLoop data ic fuel st = run data ic st.
Proof. intros H. apply nameLoop_fuel_irrelevant; [exact H | lia]. Qed.

Lemma nameLoop_init_run data ic fuel :
  (nameFuel data <= fuel)%nat ->
  nameLoop data ic fuel (initState ic) = run data ic (initState ic).
Proof.
  intros Hf. unfold nameFuel in Hf.
  destruct (Z.ltb_spec ic 0) as [Hneg|Hpos].
  - destruct fuel as [|fuel]; [lia|]. unfold run. simpl.
    assert (loopBody data ic (initState ic) = Crash) as ->; [|reflexivity].
    unfold loopBody. simpl. pose proof (len_nonneg data).
    replace (len data <=? ic) with false by lia.
    unfold index. replace (0 <=? ic) with false by lia. reflexivity.
  - apply nameLoop_run. unfold measure, len in *. simpl. lia.
Qed.

Lemma getDomainName_run data ic :
  getDomainName data ic = run data ic (initState ic).
Proof. apply nameLoop_init_run. lia. Qed.

(** ** Reachable states of the name loop *)

Lemma loopBody_Next_inv data ic st st' :
  loopBody data ic st = Next st' ->
  exists b, index data (currentReadPos st) = Some b /\
    ((Z.land (uint8 b) 0xC0 = 0 /\ 0 < uint8 b /\
      currentReadPos st + 1 + uint8 b <= len data /\
      exists label,
        slice data (currentReadPos st + 1) (currentReadPos st + 1 + uint8 b)
          = Some label /\
        st' = {| currentReadPos := currentReadPos st + 1 + uint8 b;
                 pointerFollowCount := pointerFollowCount st;
                 posAfterFirstPointer := posAfterFirstPointer st;
                 labels := labels st ++ [string_of_list_byte label] |})
     \/
     (Z.land (uint8 b) 0xC0 = 0xC0 /\ pointerFollowCount st + 1 <= 10 /\
      exists b2, index data (currentReadPos st + 1) = Some b2 /\
        0 <= pointerDestination (uint8 b) (uint8 b2) < len data /\
        st' = {| currentReadPos := pointerDestination (uint8 b) (uint8 b2);
                 pointerFollowCount := pointerFollowCount st + 1;
                 posAfterFirstPointer :=
                   if pointerFollowCount st =? 0 then currentReadPos st + 1 + 1
                   else posAfterFirstPointer st;
                 labels := labels st |})).
Proof.
  intros H. body_cases H.
  - injection H as <-. eexists; split; [reflexivity|]. left.
    match goal with b : byte |- _ => pose proof (uint8_range b) end.
    split; [lia|]. split; [lia|]. split; [lia|]. eauto.
  - injection H as <-. eexists; split; [reflexivity|]. right.
    split; [lia|]. split; [lia|]. eexists; split; [reflexivity|].
    split; [lia | reflexivity].
Qed.

Lemma reaches_trans data ic a b c :
  reaches data ic a b -> reaches data ic b c -> reaches data ic a c.
Proof.
  intros Hab Hbc. induction Hbc; [assumption|].
  eapply reaches_next; eassumption.
Qed.

Lemma reaches_first data ic a b c :
  loopBody data ic a = Next b -> reaches data ic b c -> reaches data ic a c.
Proof.
  intros Hab Hbc. eapply reaches_trans; [|exact Hbc].
  eapply reaches_next; [apply reaches_here | exact Hab].
Qed.

Lemma reaches_inv data ic a c :
  reaches data ic a c ->
  a = c \/ exists b, loopBody data ic a = Next b /\ reaches data ic b c.
Proof.
  induction 1 as [|c1 c2 Hac IH Hstep]; [now left|]. right.
  destruct IH as [->|(b & Hab & Hbc)].
  - exists c2. split; [assumption | apply reaches_here].
  - exists b. split; [assumption|]. eapply reaches_next; eassumption.
Qed.

(** The loop is deterministic: the states it passes through form a chain. *)
Lemma reaches_linear data ic a b c :
  reaches data ic a b -> reaches data ic a c ->
  reaches data ic b c \/ reaches data ic c b.
Proof.
  intros Hab Hac. induction Hab as [|b1 b2 Hab IH Hstep]; [now left|].
  destruct IH as [Hbc|Hcb].
  - apply reaches_inv in Hbc as [<-|(b' & Hb' & Hbc)].
    + right. eapply reaches_next; [apply reaches_here | exact Hstep].
    + left. congruence.
  - right. eapply reaches_next; eassumption.
Qed.

Lemma reaches_run data ic a b :
  reaches data ic a b -> run data ic a = run data ic b.
Proof.
  induction 1 as [|b1 b2 Hab IH Hstep]; [reflexivity|].
  rewrite IH, (run_unfold data ic b1), Hstep. reflexivity.
Qed.

(** Every run of the loop comes to an iteration that leaves it. *)
Lemma run_terminal data ic st :
  exists st', reaches data ic st st' /\
    (forall st'', loopBody data ic st' <> Next st'') /\
    run data ic st = finish (loopBody data ic st') (fun _ => Panic).
Proof.
  remember (measure data st) as m eqn:Hm. revert st Hm.
  induction m as [m IH] using lt_wf_ind. intros st ->.
  destruct (loopBody data ic st) as [st1| | |] eqn:Hb.
  - destruct (IH (measure data st1)) with (st := st1)
      as (st' & Hr & Hstop & Hrun); [|reflexivity|].
    + eapply loopBody_Next_measure; eassumption.
    + exists st'. split; [eapply reaches_first; eassumption|].
      split; [assumption|]. rewrite run_unfold, Hb. exact Hrun.
  - exists st. split; [apply reaches_here|]. split; [congruence|].
    rewrite run_unfold, Hb. reflexivity.
  - exists st. split; [apply reaches_here|]. split; [congruence|].
    rewrite run_unfold, Hb. reflexivity.
  - exists st. split; [apply reaches_here|]. split; [congruence|].
    rewrite run_unfold, Hb. reflexivity.
Qed.

(** ** What one iteration does, case by case *)

Lemma pointerDestination_nonneg (a b : Z) :
  0 <= a -> 0 <= b -> 0 <= pointerDestination a b.
Proof.
  intros Ha Hb. unfold pointerDestination.
  apply Z.lor_nonneg. split; [|exact Hb].
  apply Z.shiftl_nonneg. apply Z.land_nonneg. now right.
Qed.

Lemma pointer_tag_nonzero (v : Z) : Z.land v 0xC0 = 0xC0 -> v <> 0.
Proof. intros H ->. discriminate H. Qed.

Lemma loopBody_end data ic st :
  len data <= currentReadPos st ->
  loopBody data ic st = Return ("", ic, Some ErrEndOfBuffer).
Proof.
  intros H. unfold loopBody.
  replace (len data <=? currentReadPos st) with true by lia. reflexivity.
Qed.

Lemma loopBody_zero data ic st b :
  index data (currentReadPos st) = Some b -> uint8 b = 0 ->
  loopBody data ic st =
    Break {| currentReadPos := currentReadPos st + 1;
             pointerFollowCount := pointerFollowCount st;
             posAfterFirstPointer := posAfterFirstPointer st;
             labels := labels st |}.
Proof.
  intros Hi Hb. pose proof (index_Some_inv _ _ _ Hi). unfold loopBody.
  replace (len data <=? currentReadPos st) with false by lia.
  rewrite Hi, Hb. reflexivity.
Qed.

Lemma loopBody_label data ic st b :
  index data (currentReadPos st) = Some b ->
  uint8 b <> 0 -> Z.land (uint8 b) 0xC0 = 0 ->
  currentReadPos st + 1 + uint8 b <= len data ->
  exists label,
    slice data (currentReadPos st + 1) (currentReadPos st + 1 + uint8 b)
      = Some label /\
    loopBody data ic st =
      Next {| currentReadPos := currentReadPos st + 1 + uint8 b;
              pointerFollowCount := pointerFollowCount st;
              posAfterFirstPointer := posAfterFirstPointer st;
              labels := labels st ++ [string_of_list_byte label] |}.
Proof.
  intros Hi Hnz Htag Hfit. pose proof (index_Some_inv _ _ _ Hi).
  pose proof (uint8_range b).
  eexists. split; [apply slice_in_range; lia|].
  unfold loopBody.
  replace (len data <=? currentReadPos st) with false by lia.
  rewrite Hi. cbv zeta.
  replace (uint8 b =? 0) with false by lia. rewrite Htag. simpl (0 =? 0).
  cbv iota.
  replace (len data <? currentReadPos st + 1 + uint8 b) with false by lia.
  rewrite slice_in_range by lia. reflexivity.
Qed.

Lemma loopBody_label_overrun data ic st b :
  index data (currentReadPos st) = Some b ->
  uint8 b <> 0 -> Z.land (uint8 b) 0xC0 = 0 ->
  len data < currentReadPos st + 1 + uint8 b ->
  loopBody data ic st = Return ("", ic, Some ErrLabelExceeds).
Proof.
  intros Hi Hnz Htag Hfit. pose proof (index_Some_inv _ _ _ Hi).
  unfold loopBody.
  replace (len data <=? currentReadPos st) with false by lia.
  rewrite Hi. cbv zeta.
  replace (uint8 b =? 0) with false by lia. rewrite Htag. simpl (0 =? 0).
  cbv iota.
  replace (len data <? currentReadPos st + 1 + uint8 b) with true by lia.
  reflexivity.
Qed.

(** The part of the pointer case that all its outcomes share. *)
Lemma loopBody_pointer data ic st b :
  index data (currentReadPos st) = Some b ->
  Z.land (uint8 b) 0xC0 = 0xC0 ->
  loopBody data ic st =
    let pos := currentReadPos st + 1 in
    let after := if pointerFollowCount st =? 0 then pos + 1
                 else posAfterFirstPointer st in
    let count := pointerFollowCount st + 1 in
    if 10 <? count
    then Return (sentinel, if after =? 0 then ic else after,
                 Some ErrTooManyPointers)
    else if len data <=? pos
    then Return ("", ic, Some ErrIncompletePointer)
    else
      match index data pos with
      | None => Crash
      | Some secondByte =>
        let dest := pointerDestination (uint8 b) (uint8 secondByte) in
        if (dest <? 0) || (len data <=? dest)
        then Return ("", ic, Some ErrInvalidPointerDestination)
        else Next {| currentReadPos := dest;
                     pointerFollowCount := count;
                     posAfterFirstPointer := after;
                     labels := labels st |}
      end.
Proof.
  intros Hi Htag. pose proof (index_Some_inv _ _ _ Hi).
  pose proof (pointer_tag_nonzero _ Htag).
  unfold loopBody.
  replace (len data <=? currentReadPos st) with false by lia.
  rewrite Hi. cbv zeta.
  replace (uint8 b =? 0) with false by lia. rewrite Htag. reflexivity.
Qed.

Lemma loopBody_invalid data ic st b :
  index data (currentReadPos st) = Some b ->
  uint8 b <> 0 ->
  Z.land (uint8 b) 0xC0 <> 0 -> Z.land (uint8 b) 0xC0 <> 0xC0 ->
  loopBody data ic st = Return ("", ic, Some ErrInvalidLabelType).
Proof.
  intros Hi Hnz H0 H1. pose proof (index_Some_inv _ _ _ Hi).
  unfold loopBody.
  replace (len data <=? currentReadPos st) with false by lia.
  rewrite Hi. cbv zeta.
  replace (uint8 b =? 0) with false by lia.
  replace (Z.land (uint8 b) 192 =? 0) with false by lia.
  replace (Z.land (uint8 b) 192 =? 192) with false by lia.
  reflexivity.
Qed.

Lemma loopBody_Break_inv data ic st st' :
  loopBody data ic st = Break st' ->
  (exists b, index data (currentReadPos st) = Some b /\ uint8 b = 0) /\
  st' = {| currentReadPos := currentReadPos st + 1;
           pointerFollowCount := pointerFollowCount st;
           posAfterFirstPointer := posAfterFirstPointer st;
           labels := labels st |}.
Proof.
  intros H. body_cases H. injection H as <-.
  split; [|reflexivity]. eexists. split; [reflexivity | lia].
Qed.

Lemma loopBody_Return_inv data ic st name off e :
  loopBody data ic st = Return (name, off, e) ->
  (e = Some ErrTooManyPointers /\ name = sentinel /\
   10 <= pointerFollowCount st /\ isPointerAt data (currentReadPos st) = true /\
   off = (let after := if pointerFollowCount st =? 0
                       then currentReadPos st + 1 + 1
                       else posAfterFirstPointer st in
          if after =? 0 then ic else after))
  \/
  (exists e', e = Some e' /\ e' <> ErrTooManyPointers /\ name = "" /\ off = ic).
Proof.
  intros H. unfold isPointerAt. body_cases H; injection H as <- <- <-;
    try (right; eexists; split; [reflexivity|]; split; [discriminate|];
         split; reflexivity).
  left. split; [reflexivity|]. split; [reflexivity|]. split; [lia|].
  split; reflexivity.
Qed.

Lemma loopBody_Crash_inv data ic st :
  loopBody data ic st = Crash -> currentReadPos st < 0.
Proof.
  intros H. pose proof (len_nonneg data).
  unfold loopBody in H. body_step H; [discriminate|].
  body_step H.
  - match goal with Hi : index _ _ = Some ?b |- _ =>
      apply index_Some_inv in Hi; pose proof (uint8_range b) end.
    repeat (body_step H; try discriminate H).
    + rewrite slice_in_range in * by lia. discriminate.
    + match goal with Hi : index _ _ = None |- _ =>
        destruct (index_in_range data (currentReadPos st + 1)) as [? Hx];
        [lia | rewrite Hx in Hi; discriminate] end.
  - destruct (Z.ltb_spec (currentReadPos st) 0); [assumption|].
    match goal with Hi : index _ _ = None |- _ =>
        destruct (index_in_range data (currentReadPos st)) as [? Hx];
        [lia | rewrite Hx in Hi; discriminate] end.
Qed.

(** ** Invariants of the states reached from the initial one *)

Lemma reaches_count_mono data ic a b :
  reaches data ic a b -> pointerFollowCount a <= pointerFollowCount b.
Proof.
  induction 1 as [|b1 b2 Hab IH Hstep]; [lia|].
  apply loopBody_Next_inv in Hstep
    as (x & _ & [(_ & _ & _ & l & _ & ->)|(_ & _ & x2 & _ & _ & ->)]);
    simpl; lia.
Qed.

Lemma reaches_pos_nonneg data ic a b :
  reaches data ic a b -> 0 <= currentReadPos a -> 0 <= currentReadPos b.
Proof.
  induction 1 as [|b1 b2 Hab IH Hstep]; [lia|]. intros Ha.
  apply loopBody_Next_inv in Hstep
    as (x & Hx & [(_ & _ & _ & l & _ & ->)|(_ & _ & x2 & _ & ? & ->)]);
    simpl; [|lia].
  apply index_Some_inv in Hx. pose proof (uint8_range x). lia.
Qed.

Lemma isPointerAt_inv data p :
  isPointerAt data p = true ->
  exists b, index data p = Some b /\ Z.land (uint8 b) 0xC0 = 0xC0.
Proof.
  unfold isPointerAt. destruct (index data p) as [b|]; [|discriminate].
  intros H. exists b. split; [reflexivity | lia].
Qed.

Lemma isPointerAt_intro data p b :
  index data p = Some b -> Z.land (uint8 b) 0xC0 = 0xC0 ->
  isPointerAt data p = true.
Proof. intros Hi Ht. unfold isPointerAt. rewrite Hi, Ht. reflexivity. Qed.

(** A name has at most one first pointer. *)
Lemma firstPointer_unique data ic p p' :
  firstPointer data ic p -> firstPointer data ic p' -> p = p'.
Proof.
  assert (forall a b, reaches data ic a b ->
            pointerFollowCount a = 0 -> pointerFollowCount b = 0 ->
            isPointerAt data (currentReadPos a) = true -> a = b) as Hchain.
  { intros a b Hab Ha Hb Hp.
    apply reaches_inv in Hab as [->|(a1 & Hstep & Hrest)]; [reflexivity|].
    apply isPointerAt_inv in Hp as (x & Hx & Htag).
    apply reaches_count_mono in Hrest.
    apply loopBody_Next_inv in Hstep
      as (y & Hy & [(Hl & _)|(_ & _ & x2 & _ & _ & ->)]).
    - rewrite Hx in Hy. injection Hy as <-. rewrite Htag in Hl. discriminate.
    - simpl in Hrest. lia. }
  intros (a & Ha & Hca & <- & Hpa) (b & Hb & Hcb & <- & Hpb).
  destruct (reaches_linear _ _ _ _ _ Ha Hb) as [H|H].
  - now rewrite (Hchain a b H).
  - now rewrite (Hchain b a H).
Qed.

Lemma reaches_init_inv data ic st :
  reaches data ic (initState ic) st ->
  0 <= pointerFollowCount st <= 10 /\
  (pointerFollowCount st = 0 ->
     posAfterFirstPointer st = 0 /\ ic <= currentReadPos st) /\
  (0 < pointerFollowCount st ->
     exists p, firstPointer data ic p /\ posAfterFirstPointer st = p + 2 /\
               ic <= p /\ 0 <= p /\ p + 2 <= len data).
Proof.
  induction 1 as [|b1 b2 Hab IH Hstep].
  - simpl. split; [lia|]. split; [intros _; split; [reflexivity | lia] | lia].
  - destruct IH as (Hc & Hz & Hp).
    apply loopBody_Next_inv in Hstep
      as (x & Hx & [(_ & ? & _ & l & _ & ->)|(Htag & ? & x2 & Hx2 & _ & ->)]);
      simpl.
    + split; [lia|]. split; [|exact Hp].
      intros H0. destruct (Hz H0). split; [assumption | lia].
    + split; [lia|]. split; [lia|]. intros _.
      destruct (Z.eqb_spec (pointerFollowCount b1) 0) as [H0|Hn0].
      * destruct (Hz H0) as [_ Hic].
        apply index_Some_inv in Hx2. pose proof (index_Some_inv _ _ _ Hx).
        exists (currentReadPos b1). split; [|lia].
        exists b1. split; [assumption|]. split; [assumption|].
        split; [reflexivity|]. eapply isPointerAt_intro; eassumption.
      * apply Hp. lia.
Qed.

Lemma getDomainName_end data ic :
  exists st, reaches data ic (initState ic) st /\
    (forall st', loopBody data ic st <> Next st') /\
    getDomainName data ic = finish (loopBody data ic st) (fun _ => Panic).
Proof.
  rewrite getDomainName_run. apply run_terminal.
Qed.

Lemma getDomainName_from data ic st :
  reaches data ic (initState ic) st ->
  getDomainName data ic = finish (loopBody data ic st) (run data ic).
Proof.
  intros H. rewrite getDomainName_run, (reaches_run _ _ _ _ H).
  apply run_unfold.
Qed.

(** ** The resume offset *)

(** C2. When [getDomainName] succeeds, the loop was left at a terminating
    zero byte.  If it had followed no pointer, the offset returned is the
    one just after that zero byte.  If it had followed one pointer or more,
    however many, the offset returned is the one just after the two bytes of
    the first pointer of the name, and that pointer is unique. *)
Theorem getDomainName_resume_offset data ic name off :
  getDomainName data ic = Ok (name, off, None) ->
  exists st,
    reaches data ic (initState ic) st /\
    (exists b, index data (currentReadPos st) = Some b /\ uint8 b = 0) /\
    0 <= pointerFollowCount st /\
    (pointerFollowCount st = 0 -> off = currentReadPos st + 1) /\
    (0 < pointerFollowCount st ->
       exists p, firstPointer data ic p /\ off = p + 2 /\
                 forall p', firstPointer data ic p' -> p' = p).
Proof.
  intros Hget.
  destruct (getDomainName_end data ic) as (st & Hreach & Hstop & Hfin).
  rewrite Hget in Hfin. exists st. split; [assumption|].
  destruct (reaches_init_inv _ _ _ Hreach) as (Hc & _ & Hp).
  destruct (loopBody data ic st) as [st'|st'|[[n o] e]|] eqn:Hb;
    simpl in Hfin; try discriminate Hfin.
  - apply loopBody_Break_inv in Hb as [Hzero ->].
    split; [assumption|]. split; [lia|].
    unfold afterLoop in Hfin. simpl in Hfin.
    destruct (0 <? pointerFollowCount st) eqn:Hpos;
      injection Hfin as _ ->.
    + split; [lia|]. intros _.
      destruct Hp as (p & Hfirst & -> & _); [lia|].
      exists p. split; [assumption|]. split; [reflexivity|].
      intros p' Hp'. eapply firstPointer_unique; eassumption.
    + split; [reflexivity | lia].
  - injection Hfin as <- <- <-.
    apply loopBody_Return_inv in Hb as [(? & _)|(? & ? & _)]; discriminate.
Qed.

(** ** Failure values *)

(** C10. When [getDomainName] fails on the hop cap, the name it returns is
    the sentinel text and the offset is the one after the two bytes of the
    first pointer, which differs from the initial cursor; on every other
    failure the name is empty and the offset is the initial cursor. *)
Theorem getDomainName_failure_values data ic name off e :
  getDomainName data ic = Ok (name, off, Some e) ->
  (e = ErrTooManyPointers ->
     name = "Too many compression pointers" /\
     exists p, firstPointer data ic p /\ off = p + 2 /\ off <> ic) /\
  (e <> ErrTooManyPointers -> name = "" /\ off = ic).
Proof.
  intros Hget.
  destruct (getDomainName_end data ic) as (st & Hreach & Hstop & Hfin).
  rewrite Hget in Hfin.
  destruct (reaches_init_inv _ _ _ Hreach) as (Hc & _ & Hp).
  destruct (loopBody data ic st) as [st'|st'|[[n o] e']|] eqn:Hb;
    simpl in Hfin; try discriminate Hfin.
  - unfold afterLoop in Hfin.
    destruct (0 <? pointerFollowCount st'); discriminate Hfin.
  - injection Hfin as <- <- <-.
    apply loopBody_Return_inv in Hb
      as [(He & -> & Hten & _ & ->)|(e' & He & Hne & -> & ->)].
    + injection He as ->. split; [|congruence]. intros _.
      split; [reflexivity|].
      destruct Hp as (p & Hfirst & Hafter & Hic & Hp0 & _); [lia|].
      exists p. split; [assumption|]. cbv zeta.
      replace (pointerFollowCount st =? 0) with false by lia.
      rewrite Hafter. replace (p + 2 =? 0) with false by lia. lia.
    + injection He as ->. split; [congruence|]. intros _. now split.
Qed.

(** ** The hop cap *)

Lemma pointer_cycle_run data ic (P : Z -> Prop) :
  (forall p, P p -> isPointerAt data p = true /\
                    exists d, destinationAt data p = Some d /\ P d) ->
  forall (n : nat) st,
    P (currentReadPos st) ->
    pointerFollowCount st = 10 - Z.of_nat n ->
    0 <= pointerFollowCount st ->
    (pointerFollowCount st = 0 \/ posAfterFirstPointer st <> 0) ->
    run data ic st =
      Ok (sentinel,
          if pointerFollowCount st =? 0 then currentReadPos st + 2
          else posAfterFirstPointer st,
          Some ErrTooManyPointers).
Proof.
  intros Hclosed. induction n as [|n IH]; intros st HP Hcount H0 Hafter.
  - destruct (Hclosed _ HP) as [Hptr _].
    apply isPointerAt_inv in Hptr as (b & Hb & Htag).
    rewrite run_unfold, (loopBody_pointer _ _ _ _ Hb Htag). cbv zeta.
    replace (10 <? pointerFollowCount st + 1) with true by lia.
    replace (pointerFollowCount st =? 0) with false by lia.
    replace (posAfterFirstPointer st =? 0) with false by lia.
    reflexivity.
  - destruct (Hclosed _ HP) as [Hptr (d & Hd & HPd)].
    apply isPointerAt_inv in Hptr as (b & Hb & Htag).
    unfold destinationAt in Hd. rewrite Hb in Hd.
    destruct (index data (currentReadPos st + 1)) as [b2|] eqn:Hb2;
      [|discriminate]. injection Hd as <-.
    destruct (Hclosed _ HPd) as [Hdptr _].
    apply isPointerAt_inv in Hdptr as (bd & Hbd & _).
    apply index_Some_inv in Hbd. pose proof (index_Some_inv _ _ _ Hb).
    pose proof (index_Some_inv _ _ _ Hb2).
    rewrite run_unfold, (loopBody_pointer _ _ _ _ Hb Htag). cbv zeta.
    replace (10 <? pointerFollowCount st + 1) with false by lia.
    replace (len data <=? currentReadPos st + 1) with false by lia.
    rewrite Hb2.
    match goal with |- context [(?d <? 0) || (len data <=? ?d)] =>
      replace ((d <? 0) || (len data <=? d)) with false by lia end.
    simpl finish. rewrite IH; simpl; try assumption; try lia.
    + replace (pointerFollowCount st + 1 =? 0) with false by lia.
      destruct (pointerFollowCount st =? 0); do 3 f_equal; lia.
    + right. destruct (pointerFollowCount st =? 0) eqn:E; lia.
Qed.

(** C3. [getDomainName] terminates: the fuel of the model is never used up
    and more fuel changes nothing.  No decoding follows more than 10
    pointers; one that comes to an eleventh pointer fails with the
    too-many-compression-pointers error; and so does every decoding that
    starts inside a set of pointers closed under "points to", such as a
    pointer to itself or a cycle of any length. *)
Theorem getDomainName_terminates data ic :
  getDomainName data ic <> OutOfFuel /\
  (forall fuel, (nameFuel data <= fuel)%nat ->
     nameLoop data ic fuel (initState ic) = getDomainName data ic) /\
  (forall st, reaches data ic (initState ic) st ->
     0 <= pointerFollowCount st <= 10) /\
  (forall st, reaches data ic (initState ic) st ->
     pointerFollowCount st = 10 ->
     isPointerAt data (currentReadPos st) = true ->
     exists off, getDomainName data ic =
       Ok ("Too many compression pointers", off, Some ErrTooManyPointers)) /\
  (forall P : Z -> Prop,
     (forall p, P p -> isPointerAt data p = true /\
                       exists d, destinationAt data p = Some d /\ P d) ->
     P ic ->
     getDomainName data ic =
       Ok ("Too many compression pointers", ic + 2, Some ErrTooManyPointers)).
Proof.
  split; [|split; [|split; [|split]]].
  - rewrite getDomainName_run.
    apply nameLoop_enough_fuel. lia.
  - intros fuel Hfuel. rewrite getDomainName_run.
    now apply nameLoop_init_run.
  - intros st Hreach. apply (reaches_init_inv _ _ _ Hreach).
  - intros st Hreach Hten Hptr.
    apply isPointerAt_inv in Hptr as (b & Hb & Htag).
    rewrite (getDomainName_from _ _ _ Hreach),
      (loopBody_pointer _ _ _ _ Hb Htag). cbv zeta.
    replace (10 <? pointerFollowCount st + 1) with true by lia.
    simpl. eauto.
  - intros P Hclosed Hic. rewrite getDomainName_run.
    rewrite (pointer_cycle_run data ic P Hclosed 10 (initState ic));
      simpl; try assumption; try lia; try reflexivity.
Qed.

(** ** Labels that end with the buffer *)

(** C8. A label that the decoding comes to and that ends exactly where the
    buffer ends, with no terminator byte after it, makes [getDomainName]
    fail with the end-of-buffer error. *)
Theorem getDomainName_label_to_end data ic st b :
  reaches data ic (initState ic) st ->
  index data (currentReadPos st) = Some b ->
  uint8 b <> 0 -> Z.land (uint8 b) 0xC0 = 0 ->
  currentReadPos st + 1 + uint8 b = len data ->
  getDomainName data ic = Ok ("", ic, Some ErrEndOfBuffer).
Proof.
  intros Hreach Hb Hnz Htag Hend.
  destruct (loopBody_label data ic st b Hb Hnz Htag) as (label & _ & Hnext);
    [lia|].
  rewrite (getDomainName_from _ _ _ Hreach), Hnext. simpl finish.
  rewrite run_unfold, loopBody_end; [reflexivity|]. simpl. lia.
Qed.

(** ** Pointer destinations *)

(** C7, as the code has it.  For a pointer that the decoding comes to and
    whose second byte is in the buffer: while fewer than 10 pointers have
    been followed, a destination at or beyond the end of the buffer fails
    with the invalid-pointer-destination error, and a destination inside
    the buffer, before or behind the pointer alike, is where the next
    iteration reads; once 10 pointers have been followed the pointer fails
    with the too-many-compression-pointers error whatever it points to. *)
Theorem getDomainName_pointer_destination data ic st d :
  reaches data ic (initState ic) st ->
  isPointerAt data (currentReadPos st) = true ->
  destinationAt data (currentReadPos st) = Some d ->
  (pointerFollowCount st < 10 -> len data <= d ->
     getDomainName data ic = Ok ("", ic, Some ErrInvalidPointerDestination)) /\
  (pointerFollowCount st < 10 -> d < len data ->
     exists st', loopBody data ic st = Next st' /\ currentReadPos st' = d /\
                 pointerFollowCount st' = pointerFollowCount st + 1 /\
                 labels st' = labels st) /\
  (pointerFollowCount st = 10 ->
     exists off, getDomainName data ic =
       Ok ("Too many compression pointers", off, Some ErrTooManyPointers)).
Proof.
  intros Hreach Hptr Hd.
  apply isPointerAt_inv in Hptr as (b & Hb & Htag).
  unfold destinationAt in Hd. rewrite Hb in Hd.
  destruct (index data (currentReadPos st + 1)) as [b2|] eqn:Hb2;
    [|discriminate]. injection Hd as <-.
  pose proof (index_Some_inv _ _ _ Hb2).
  pose proof (pointerDestination_nonneg (uint8 b) (uint8 b2)
                ltac:(apply uint8_range) ltac:(apply uint8_range)) as Hd0.
  pose proof (loopBody_pointer data ic st b Hb Htag) as Hbody.
  cbv zeta in Hbody. rewrite Hb2 in Hbody.
  replace (len data <=? currentReadPos st + 1) with false in Hbody by lia.
  split; [|split].
  - intros Hc Hfar.
    rewrite (getDomainName_from _ _ _ Hreach), Hbody.
    replace (10 <? pointerFollowCount st + 1) with false by lia.
    match goal with |- context [(?d <? 0) || (len data <=? ?d)] =>
      replace ((d <? 0) || (len data <=? d)) with true by lia end.
    reflexivity.
  - intros Hc Hnear.
    replace (10 <? pointerFollowCount st + 1) with false in Hbody by lia.
    match type of Hbody with context [(?d <? 0) || (len data <=? ?d)] =>
      replace ((d <? 0) || (len data <=? d)) with false in Hbody by lia end.
    eexists. split; [exact Hbody|]. simpl. auto.
  - intros Hc. rewrite (getDomainName_from _ _ _ Hreach), Hbody.
    replace (10 <? pointerFollowCount st + 1) with true by lia.
    simpl. eauto.
Qed.

(** ** Reads that cannot fail *)

Lemma readUint16_ok data c :
  0 <= c -> c + 2 <= len data ->
  exists v, readUint16 data c = Ok v /\ 0 <= v.
Proof.
  intros Hc Hfit. unfold readUint16, slice_from.
  pose proof (slice_length data _ c (len data)
                (slice_in_range data c (len data) ltac:(lia) ltac:(lia))) as Hlen.
  rewrite slice_in_range by lia.
  destruct (take _ _) as [|b0 [|b1 t]]; unfold len in *; simpl in Hlen;
    try lia.
  eexists. split; [reflexivity|].
  pose proof (uint8_range b0). pose proof (uint8_range b1).
  apply Z.lor_nonneg. split; [lia|]. apply Z.shiftl_nonneg. lia.
Qed.

Lemma readUint32_ok data c :
  0 <= c -> c + 4 <= len data ->
  exists v, readUint32 data c = Ok v /\ 0 <= v.
Proof.
  intros Hc Hfit. unfold readUint32, slice_from.
  pose proof (slice_length data _ c (len data)
                (slice_in_range data c (len data) ltac:(lia) ltac:(lia))) as Hlen.
  rewrite slice_in_range by lia.
  destruct (take _ _) as [|b0 [|b1 [|b2 [|b3 t]]]]; unfold len in *;
    simpl in Hlen; try lia.
  eexists. split; [reflexivity|].
  pose proof (uint8_range b0). pose proof (uint8_range b1).
  pose proof (uint8_range b2). pose proof (uint8_range b3).
  repeat (apply Z.lor_nonneg; split); try apply Z.shiftl_nonneg; lia.
Qed.

Lemma loopBody_Return_nameError data ic st name off e :
  loopBody data ic st = Return (name, off, Some e) -> nameError e = true.
Proof. intros H. body_cases H; injection H as <- <- <-; reflexivity. Qed.

Lemma getDomainName_total data ic :
  0 <= ic ->
  exists name off e,
    getDomainName data ic = Ok (name, off, e) /\
    (e = None -> 0 <= off <= len data) /\
    (forall e', e = Some e' -> nameError e' = true).
Proof.
  intros Hic.
  destruct (getDomainName_end data ic) as (st & Hreach & Hstop & ->).
  destruct (reaches_init_inv _ _ _ Hreach) as (Hc & _ & Hp).
  pose proof (reaches_pos_nonneg _ _ _ _ Hreach Hic) as Hpos.
  destruct (loopBody data ic st) as [st'|st'|[[n o] e]|] eqn:Hb; simpl.
  - now destruct (Hstop st').
  - apply loopBody_Break_inv in Hb as [(b & Hi & _) ->].
    apply index_Some_inv in Hi.
    unfold afterLoop; simpl.
    destruct (0 <? pointerFollowCount st) eqn:Hcount.
    + destruct Hp as (p & _ & -> & _ & ? & ?); [lia|].
      do 3 eexists. split; [reflexivity|]. split; [lia | discriminate].
    + do 3 eexists. split; [reflexivity|]. split; [lia | discriminate].
  - do 3 eexists. split; [reflexivity|]. split.
    + intros ->.
      apply loopBody_Return_inv in Hb as [(? & _)|(? & ? & _)]; discriminate.
    + intros e' ->. eapply loopBody_Return_nameError; eassumption.
  - apply loopBody_Crash_inv in Hb. lia.
Qed.

Lemma parseRR_total data c :
  0 <= c ->
  exists rr c' e,
    parseRR data c = Ok (rr, c', e) /\
    (e = None -> 0 <= c' <= len data) /\
    (forall e', e = Some e' -> recordError e' = true).
Proof.
  intros Hc. unfold parseRR.
  destruct (getDomainName_total data c Hc)
    as (name & c1 & e & -> & Hoff & Herr).
  simpl. destruct e as [e|].
  { do 3 eexists. split; [reflexivity|]. split; [discriminate|].
    intros e' [= <-]. specialize (Herr e eq_refl).
    destruct e; try discriminate Herr; reflexivity. }
  specialize (Hoff eq_refl).
  destruct (len data <? c1 + 10) eqn:Hhdr.
  { do 3 eexists. split; [reflexivity|]. split; [discriminate|].
    now intros e' [= <-]. }
  destruct (readUint16_ok data c1) as (ty & -> & _); [lia..|].
  destruct (readUint16_ok data (c1 + 2)) as (cl & -> & _); [lia..|].
  destruct (readUint32_ok data (c1 + 2 + 2)) as (ttl & -> & _); [lia..|].
  destruct (readUint16_ok data (c1 + 2 + 2 + 4)) as (rdlen & -> & Hrd);
    [lia..|].
  simpl.
  destruct (len data <? c1 + 2 + 2 + 4 + 2 + rdlen) eqn:Hdata.
  { do 3 eexists. split; [reflexivity|]. split; [discriminate|].
    now intros e' [= <-]. }
  rewrite slice_in_range by lia. simpl.
  do 3 eexists. split; [reflexivity|]. split; [lia | discriminate].
Qed.

(** ** The section loops *)

Lemma len_alter {A} (f : A -> A) (i : nat) (s : list A) :
  len (alter f i s) = len s.
Proof. unfold len. now rewrite length_alter. Qed.

Lemma questionLoop_spec data todo : forall i cursor (qs : list dnsQuestion),
  0 <= cursor -> 0 <= i -> i + Z.of_nat todo = len qs ->
  (forall j q, (j < Z.to_nat i)%nat -> qs !! j = Some q ->
               parsedQuestion data q) ->
  exists s, questionLoop data todo i cursor qs = Ok s /\
    match s with
    | Failed e => recordError e = true \/ e = ErrEOFQuestions \/
                  e = ErrQtypeQclass
    | Parsed qs' c' =>
        0 <= c' /\ len qs' = len qs /\ Forall (parsedQuestion data) qs'
    end.
Proof.
  induction todo as [|todo IH]; intros i cursor qs Hc Hi Hlen Hdone.
  - simpl. eexists. split; [reflexivity|]. split; [assumption|].
    split; [reflexivity|]. apply Forall_lookup. intros j q Hj.
    apply (Hdone j q); [|assumption].
    apply lookup_lt_Some in Hj. unfold len in Hlen. lia.
  - simpl. destruct (len data <=? cursor) eqn:Heof.
    { eexists. split; [reflexivity|]. simpl; auto. }
    destruct (getDomainName_total data cursor Hc)
      as (name & c1 & e & Hname & Hoff & Herr).
    rewrite Hname. simpl.
    rewrite update_in_range by lia. simpl.
    destruct e as [e|].
    { eexists. split; [reflexivity|]. simpl. left.
      specialize (Herr e eq_refl).
      destruct e; try discriminate Herr; reflexivity. }
    specialize (Hoff eq_refl).
    destruct (len data <? c1 + 4) eqn:Hfix.
    { eexists. split; [reflexivity|]. simpl; auto. }
    destruct (readUint16_ok data c1) as (qt & Hqt & _); [lia..|].
    destruct (readUint16_ok data (c1 + 2)) as (qc & Hqc & _); [lia..|].
    rewrite Hqt. simpl. rewrite update_in_range by (rewrite len_alter; lia).
    simpl. rewrite Hqc. simpl.
    rewrite update_in_range by (rewrite !len_alter; lia). simpl.
    destruct (IH (i + 1) (c1 + 2 + 2)
                (alter (setQclass qc) (Z.to_nat i)
                   (alter (setQtype qt) (Z.to_nat i)
                      (alter (setName name) (Z.to_nat i) qs))))
      as (s & Hs & Hspec); try lia.
    + rewrite !len_alter. lia.
    + intros j q Hj Hq.
      destruct (decide (j = Z.to_nat i)) as [->|Hne].
      * rewrite !list_lookup_alter_eq in Hq.
        destruct (qs !! Z.to_nat i) as [q0|]; [|discriminate].
        injection Hq as <-. exists cursor, c1. simpl.
        split; [assumption|]. split; [lia|]. split; assumption.
      * rewrite !list_lookup_alter_ne in Hq by congruence.
        apply (Hdone j q); [lia | assumption].
    + exists s. split; [assumption|].
      destruct s as [e|qs' c']; [assumption|].
      now rewrite !len_alter in Hspec.
Qed.

Lemma rrLoop_spec data eof todo : forall i cursor (rrs : list dnsRR),
  0 <= cursor -> 0 <= i -> i + Z.of_nat todo = len rrs ->
  (forall j rr, (j < Z.to_nat i)%nat -> rrs !! j = Some rr ->
                parsedRR data rr) ->
  exists s, rrLoop data eof todo i cursor rrs = Ok s /\
    match s with
    | Failed e => recordError e = true \/ e = eof
    | Parsed rrs' c' =>
        0 <= c' /\ len rrs' = len rrs /\ Forall (parsedRR data) rrs'
    end.
Proof.
  induction todo as [|todo IH]; intros i cursor rrs Hc Hi Hlen Hdone.
  - simpl. eexists. split; [reflexivity|]. split; [assumption|].
    split; [reflexivity|]. apply Forall_lookup. intros j q Hj.
    apply (Hdone j q); [|assumption].
    apply lookup_lt_Some in Hj. unfold len in Hlen. lia.
  - simpl. destruct (len data <=? cursor) eqn:Heof.
    { eexists. split; [reflexivity|]. simpl; auto. }
    destruct (parseRR_total data cursor Hc)
      as (rr & c1 & e & Hrr & Hoff & Herr).
    rewrite Hrr. simpl.
    rewrite update_in_range by lia. simpl.
    destruct e as [e|].
    { eexists. split; [reflexivity|]. simpl. left. now apply Herr. }
    specialize (Hoff eq_refl).
    destruct (IH (i + 1) c1 (alter (fun _ => rr) (Z.to_nat i) rrs))
      as (s & Hs & Hspec); try lia.
    + rewrite len_alter. lia.
    + intros j q Hj Hq.
      destruct (decide (j = Z.to_nat i)) as [->|Hne].
      * rewrite list_lookup_alter_eq in Hq.
        destruct (rrs !! Z.to_nat i) as [q0|]; [|discriminate].
        injection Hq as <-. exists cursor, c1. assumption.
      * rewrite list_lookup_alter_ne in Hq by congruence.
        apply (Hdone j q); [lia | assumption].
    + exists s. split; [assumption|].
      destruct s as [e|rrs' c']; [assumption|].
      now rewrite len_alter in Hspec.
Qed.

Lemma rrSection_spec data eof n cursor :
  0 <= cursor -> 0 <= n ->
  exists s, rrSection data eof n cursor = Ok s /\
    match s with
    | Failed e => recordError e = true \/ e = eof
    | Parsed rrs c' =>
        0 <= c' /\ len rrs = n /\ Forall (parsedRR data) rrs
    end.
Proof.
  intros Hc Hn. unfold rrSection. destruct (0 <? n) eqn:Hpos.
  - destruct (rrLoop_spec data eof (Z.to_nat n) 0 cursor (make zeroRR n))
      as (s & Hs & Hspec); try lia.
    + rewrite make_length; lia.
    + exists s. split; [assumption|].
      destruct s as [e|rrs c']; [assumption|].
      now rewrite make_length in Hspec.
  - eexists. split; [reflexivity|]. split; [assumption|].
    split; [unfold len; simpl; lia | constructor].
Qed.

(** ** The header *)

Lemma Itob_mask_bit (w m k : Z) :
  0 <= k -> Z.shiftr m k = 1 ->
  Itob (Z.shiftr (Z.land w m) k) = Z.testbit w k.
Proof.
  intros Hk Hm. rewrite Z.shiftr_land, Hm.
  change 1 with (Z.ones 1). rewrite Z.land_ones by lia.
  change (2 ^ 1) with 2. rewrite Zmod_odd.
  rewrite <- Z.bit0_odd, Z.shiftr_spec by lia. rewrite Z.add_0_l.
  unfold Itob. now destruct (Z.testbit w k).
Qed.

Lemma Uint16_ok (data : list byte) :
  2 <= len data -> exists v, Uint16 data = Ok v /\ 0 <= v.
Proof.
  intros H. destruct data as [|b0 [|b1 rest]]; unfold len in H; simpl in H;
    try lia.
  eexists. split; [reflexivity|].
  pose proof (uint8_range b0). pose proof (uint8_range b1).
  apply Z.lor_nonneg. split; [lia|]. apply Z.shiftl_nonneg. lia.
Qed.

(** Every header field but [response] is taken from its place in the
    header; [response] is set to [true] whatever the flags word holds. *)
Lemma parseHeader_fields data :
  12 <= len data ->
  exists w h,
    readUint16 data 2 = Ok w /\ parseHeader data = Ok h /\
    Uint16 data = Ok (id h) /\
    response h = true /\
    opcode h = (w / 2 ^ 11) mod 2 ^ 4 /\
    authoritative h = Z.testbit w 10 /\
    truncated h = Z.testbit w 9 /\
    recursion_desired h = Z.testbit w 8 /\
    recursion_available h = Z.testbit w 7 /\
    rcode h = w mod 2 ^ 4 /\
    (readUint16 data 4 = Ok (question_num h) /\ 0 <= question_num h) /\
    (readUint16 data 6 = Ok (answer_num h) /\ 0 <= answer_num h) /\
    (readUint16 data 8 = Ok (authority_num h) /\ 0 <= authority_num h) /\
    (readUint16 data 10 = Ok (additional_num h) /\ 0 <= additional_num h).
Proof.
  intros Hlen. unfold parseHeader.
  destruct (Uint16_ok data) as (i & Hi & _); [lia|].
  destruct (readUint16_ok data 2) as (w & Hw & _); [lia..|].
  destruct (readUint16_ok data 4) as (qd & Hqd & ?); [lia..|].
  destruct (readUint16_ok data 6) as (an & Han & ?); [lia..|].
  destruct (readUint16_ok data 8) as (au & Hau & ?); [lia..|].
  destruct (readUint16_ok data 10) as (ad & Had & ?); [lia..|].
  rewrite Hi, Hw, Hqd, Han, Hau, Had. simpl.
  eexists _, _. split; [reflexivity|]. split; [reflexivity|]. simpl.
  split; [reflexivity|]. split; [reflexivity|].
  split. { change 15 with (Z.ones 4). rewrite Z.land_ones by lia.
           now rewrite Z.shiftr_div_pow2 by lia. }
  split; [now apply Itob_mask_bit|]. split; [now apply Itob_mask_bit|].
  split; [now apply Itob_mask_bit|]. split; [now apply Itob_mask_bit|].
  split. { change 15 with (Z.ones 4). now rewrite Z.land_ones by lia. }
  auto.
Qed.

(** ** The message decoder as a whole *)

Lemma parseDNSMsg_spec data :
  12 <= len data ->
  exists h msg err,
    parseHeader data = Ok h /\ parseDNSMsg data = Ok (msg, err) /\
    hdr msg = h /\
    (forall e, err = Some e -> sectionError e = true) /\
    (err = None ->
       len (question msg) = question_num h /\
       len (answer msg) = answer_num h /\
       len (ns msg) = authority_num h /\
       len (extra msg) = additional_num h /\
       Forall (parsedQuestion data) (question msg) /\
       Forall (parsedRR data) (answer msg) /\
       Forall (parsedRR data) (ns msg) /\
       Forall (parsedRR data) (extra msg)).
Proof.
  intros Hlen.
  destruct (parseHeader_fields data Hlen)
    as (w & h & _ & Hh & _ & _ & _ & _ & _ & _ & _ & _ &
        [_ Hqd] & [_ Han] & [_ Hau] & [_ Had]).
  exists h. unfold parseDNSMsg.
  replace (len data <? 12) with false by lia. rewrite Hh. simpl.
  destruct (questionLoop_spec data (Z.to_nat (question_num h)) 0 12
              (make zeroQuestion (question_num h)))
    as (q & -> & Hq); try lia.
  { rewrite make_length; lia. }
  simpl. destruct q as [e|qs c1].
  { do 2 eexists. split; [reflexivity|]. split; [reflexivity|].
    split; [reflexivity|]. split; [|discriminate].
    intros e' [= <-]. destruct Hq as [Hq|[->| ->]]; try reflexivity.
    destruct e; try discriminate Hq; reflexivity. }
  destruct Hq as (Hc1 & Hqlen & Hqall). rewrite make_length in Hqlen by lia.
  destruct (rrSection_spec data ErrEOFAnswers (answer_num h) c1)
    as (a & -> & Ha); try lia.
  simpl. destruct a as [e|ans c2].
  { do 2 eexists. split; [reflexivity|]. split; [reflexivity|].
    split; [reflexivity|]. split; [|discriminate].
    intros e' [= <-]. destruct Ha as [Ha| ->]; try reflexivity.
    destruct e; try discriminate Ha; reflexivity. }
  destruct Ha as (Hc2 & Halen & Haall).
  destruct (rrSection_spec data ErrEOFAuthority (authority_num h) c2)
    as (n & -> & Hn); try lia.
  simpl. destruct n as [e|nss c3].
  { do 2 eexists. split; [reflexivity|]. split; [reflexivity|].
    split; [reflexivity|]. split; [|discriminate].
    intros e' [= <-]. destruct Hn as [Hn| ->]; try reflexivity.
    destruct e; try discriminate Hn; reflexivity. }
  destruct Hn as (Hc3 & Hnlen & Hnall).
  destruct (rrSection_spec data ErrEOFAdditional (additional_num h) c3)
    as (x & -> & Hx); try lia.
  simpl. destruct x as [e|exs c4].
  { do 2 eexists. split; [reflexivity|]. split; [reflexivity|].
    split; [reflexivity|]. split; [|discriminate].
    intros e' [= <-]. destruct Hx as [Hx| ->]; try reflexivity.
    destruct e; try discriminate Hx; reflexivity. }
  destruct Hx as (Hc4 & Hxlen & Hxall).
  do 2 eexists. split; [reflexivity|]. split; [reflexivity|].
  split; [reflexivity|]. split; [discriminate|]. intros _. simpl.
  repeat split; assumption.
Qed.

Lemma parseDNSMsg_short data :
  len data < 12 -> parseDNSMsg data = Ok (zeroMsg, Some ErrHeaderTooShort).
Proof.
  intros H. unfold parseDNSMsg.
  replace (len data <? 12) with true by lia. reflexivity.
Qed.

(** C9. A buffer of fewer than 12 bytes is refused with the
    header-too-short error and the untouched zero message.  With 12 bytes
    or more the header is decoded, the message returned carries it even
    when a later section fails, and the error, if any, is never the
    header-too-short one. *)
Theorem parseDNSMsg_header_length data :
  (len data < 12 -> parseDNSMsg data = Ok (zeroMsg, Some ErrHeaderTooShort)) /\
  (12 <= len data ->
     exists h msg err,
       parseHeader data = Ok h /\ parseDNSMsg data = Ok (msg, err) /\
       hdr msg = h /\ err <> Some ErrHeaderTooShort).
Proof.
  split; [apply parseDNSMsg_short|].
  - intros H.
    destruct (parseDNSMsg_spec data H) as (h & msg & err & ? & ? & ? & He & _).
    exists h, msg, err. repeat (split; [assumption|]).
    intros ->. specialize (He _ eq_refl). discriminate He.
Qed.

(** C5. Decoding never panics and always returns: a name or a record
    decoded at any offset from 0 on, and a message decoded from any buffer,
    yield a result, which is a value or an error, never a failed bounds
    check of an index, a slice or a fixed-size read. *)
Theorem decoding_never_panics data :
  (forall c, 0 <= c -> exists r, getDomainName data c = Ok r) /\
  (forall c, 0 <= c -> exists r, parseRR data c = Ok r) /\
  (exists msg err, parseDNSMsg data = Ok (msg, err)).
Proof.
  split; [|split].
  - intros c Hc.
    destruct (getDomainName_total data c Hc) as (n & o & e & -> & _). eauto.
  - intros c Hc.
    destruct (parseRR_total data c Hc) as (rr & o & e & -> & _). eauto.
  - destruct (Z.ltb_spec (len data) 12) as [Hshort|Hlong].
    + do 2 eexists. now apply parseDNSMsg_short.
    + destruct (parseDNSMsg_spec data Hlong) as (h & msg & err & _ & -> & _).
      eauto.
Qed.

(** C4. A message returned without error has, in each of its four
    sections, as many entries as the header counts say, and every entry is
    a question or record that was decoded from the buffer; so a message
    with a section shorter or longer than its count only ever comes with
    an error. *)
Theorem parseDNSMsg_counts data msg err :
  parseDNSMsg data = Ok (msg, err) ->
  (err = None ->
     len (question msg) = question_num (hdr msg) /\
     len (answer msg) = answer_num (hdr msg) /\
     len (ns msg) = authority_num (hdr msg) /\
     len (extra msg) = additional_num (hdr msg) /\
     Forall (parsedQuestion data) (question msg) /\
     Forall (parsedRR data) (answer msg) /\
     Forall (parsedRR data) (ns msg) /\
     Forall (parsedRR data) (extra msg)) /\
  (len (question msg) <> question_num (hdr msg) \/
   len (answer msg) <> answer_num (hdr msg) \/
   len (ns msg) <> authority_num (hdr msg) \/
   len (extra msg) <> additional_num (hdr msg) ->
   exists e, err = Some e).
Proof.
  intros Hparse.
  assert (err = None ->
     len (question msg) = question_num (hdr msg) /\
     len (answer msg) = answer_num (hdr msg) /\
     len (ns msg) = authority_num (hdr msg) /\
     len (extra msg) = additional_num (hdr msg) /\
     Forall (parsedQuestion data) (question msg) /\
     Forall (parsedRR data) (answer msg) /\
     Forall (parsedRR data) (ns msg) /\
     Forall (parsedRR data) (extra msg)) as Hok.
  { intros ->.
    destruct (Z.ltb_spec (len data) 12) as [Hshort|Hlong].
    - rewrite (parseDNSMsg_short data Hshort) in Hparse.
      discriminate Hparse.
    - destruct (parseDNSMsg_spec data Hlong)
        as (h & msg' & err' & _ & Hp & <- & _ & Hall).
      rewrite Hparse in Hp. injection Hp as <- <-. now apply Hall. }
  split; [exact Hok|].
  intros Hbad. destruct err as [e|]; [eauto|].
  destruct (Hok eq_refl) as (? & ? & ? & ? & _). lia.
Qed.

(** C6. The reference message of the test suite decodes to the values the
    test expects. *)
Theorem parseDNSMsg_reference_message :
  parseDNSMsg dnsMessageBytes = Ok (referenceMessage, None)
  /\ id (hdr referenceMessage) = 0x1234
  /\ readUint16 dnsMessageBytes 2 = Ok 0x8180
  /\ response (hdr referenceMessage) = true
  /\ recursion_desired (hdr referenceMessage) = true
  /\ recursion_available (hdr referenceMessage) = true
  /\ rcode (hdr referenceMessage) = 0
  /\ question referenceMessage =
       [ {| qName := "test.example.com"; Qtype := 1; Qclass := 1 |} ]
  /\ map Name (answer referenceMessage) =
       [ "sub1.test.example.com"; "sub2.test.example.com" ]
  /\ map Rrtype (answer referenceMessage) = [1; 1]
  /\ map Class (answer referenceMessage) = [1; 1]
  /\ map Ttl (answer referenceMessage) = [225; 225]
  /\ map Rdlength (answer referenceMessage) = [4; 4]
  /\ map (fun rr => map uint8 (Data rr)) (answer referenceMessage) =
       [ [192; 0; 2; 1]; [192; 0; 2; 2] ]
  /\ ns referenceMessage = [] /\ extra referenceMessage = [].
Proof. repeat split; vm_compute; reflexivity. Qed.

(** The reference message cut off behind its first answer still announces
    two answers, and is refused. *)
Example parseDNSMsg_missing_answer :
  exists msg, parseDNSMsg (take 71 dnsMessageBytes)
              = Ok (msg, Some ErrEOFAnswers).
Proof. eexists. vm_compute. reflexivity. Qed.

(** C1. On a plain query, whose flags word 0x0100 has bit 15 clear, the
    decoder reports [response = true]: the field is assigned the constant
    [true] and never the QR bit.  ([parseHeader_fields] shows that the other
    flags, the opcode and the rcode do come from their bit positions.) *)
Theorem parseDNSMsg_query_reported_as_response :
  exists msg,
    parseDNSMsg dnsQueryBytes = Ok (msg, None) /\
    readUint16 dnsQueryBytes 2 = Ok 0x0100 /\
    Z.testbit 0x0100 15 = false /\
    response (hdr msg) = true.
Proof. eexists. repeat split; vm_compute; reflexivity. Qed.

(** C7, as stated, fails on [elevenPointers]: the decoding started at 0
    comes to the pointer at offset 20, whose destination 255 lies beyond the
    22 bytes of the buffer, and fails with the too-many-compression-pointers
    error, not with the invalid-pointer-destination one. *)
Lemma pointer_beyond_buffer_at_hop_cap :
  exists st,
    reaches elevenPointers 0 (initState 0) st /\
    currentReadPos st = 20 /\
    isPointerAt elevenPointers (currentReadPos st) = true /\
    destinationAt elevenPointers (currentReadPos st) = Some 255 /\
    len elevenPointers <= 255 /\
    getDomainName elevenPointers 0 =
      Ok ("Too many compression pointers", 2, Some ErrTooManyPointers) /\
    getDomainName elevenPointers 0 <>
      Ok ("", 0, Some ErrInvalidPointerDestination).
Proof.
  exists {| currentReadPos := 20; pointerFollowCount := 10;
            posAfterFirstPointer := 2; labels := [] |}.
  split.
  { repeat (eapply reaches_first; [reflexivity|]). apply reaches_here. }
  repeat split; try (vm_compute; reflexivity); try discriminate.
Qed.

(** ** The theorems at concrete inputs *)

Lemma getDomainName_resume_offset_witness :
  getDomainName dnsMessageBytes 71 = Ok ("sub2.test.example.com", 78, None) /\
  exists st,
    reaches dnsMessageBytes 71 (initState 71) st /\
    (exists b, index dnsMessageBytes (currentReadPos st) = Some b /\
               uint8 b = 0) /\
    0 <= pointerFollowCount st /\
    (pointerFollowCount st = 0 -> 78 = currentReadPos st + 1) /\
    (0 < pointerFollowCount st ->
       exists p, firstPointer dnsMessageBytes 71 p /\ 78 = p + 2 /\
                 forall p', firstPointer dnsMessageBytes 71 p' -> p' = p).
Proof.
  split; [vm_compute; reflexivity|].
  apply (getDomainName_resume_offset dnsMessageBytes 71
           "sub2.test.example.com" 78).
  vm_compute; reflexivity.
Defined.

Lemma getDomainName_failure_values_witness :
  getDomainName [xc0; x00] 0
    = Ok ("Too many compression pointers", 2, Some ErrTooManyPointers) /\
  (ErrTooManyPointers = ErrTooManyPointers ->
     "Too many compression pointers" = "Too many compression pointers" /\
     exists p, firstPointer [xc0; x00] 0 p /\ 2 = p + 2 /\ 2 <> 0) /\
  (ErrTooManyPointers <> ErrTooManyPointers ->
     "Too many compression pointers" = "" /\ 2 = 0).
Proof.
  split; [vm_compute; reflexivity|].
  apply (getDomainName_failure_values [xc0; x00] 0).
  vm_compute; reflexivity.
Defined.

Lemma getDomainName_terminates_witness :
  getDomainName [xc0; x00] 0
    = Ok ("Too many compression pointers", 0 + 2, Some ErrTooManyPointers).
Proof.
  apply (proj2 (proj2 (proj2 (proj2 (getDomainName_terminates [xc0; x00] 0))))
           (fun p => p = 0)).
  - intros p ->. split; [reflexivity|]. exists 0. split; reflexivity.
  - reflexivity.
Defined.

Lemma getDomainName_label_to_end_witness :
  getDomainName [x03; x63; x6f; x6d] 0 = Ok ("", 0, Some ErrEndOfBuffer).
Proof.
  apply (getDomainName_label_to_end [x03; x63; x6f; x6d] 0 (initState 0) x03).
  - apply reaches_here.
  - reflexivity.
  - vm_compute. discriminate.
  - reflexivity.
  - reflexivity.
Defined.

Lemma getDomainName_pointer_destination_witness :
  getDomainName [xc0; x05] 0 = Ok ("", 0, Some ErrInvalidPointerDestination).
Proof.
  apply (proj1 (getDomainName_pointer_destination [xc0; x05] 0
                  (initState 0) 5 (reaches_here _ _ _) eq_refl eq_refl)).
  - simpl. lia.
  - vm_compute. discriminate.
Defined.

Lemma parseDNSMsg_header_length_witness :
  parseDNSMsg [x12; x34] = Ok (zeroMsg, Some ErrHeaderTooShort) /\
  exists h msg err,
    parseHeader dnsMessageBytes = Ok h /\
    parseDNSMsg dnsMessageBytes = Ok (msg, err) /\
    hdr msg = h /\ err <> Some ErrHeaderTooShort.
Proof.
  split.
  - apply (proj1 (parseDNSMsg_header_length [x12; x34])).
    vm_compute. reflexivity.
  - apply (proj2 (parseDNSMsg_header_length dnsMessageBytes)).
    vm_compute. discriminate.
Defined.

Lemma decoding_never_panics_witness :
  (exists r, getDomainName dnsMessageBytes 71 = Ok r) /\
  (exists r, parseRR dnsMessageBytes 71 = Ok r).
Proof.
  split.
  - apply (proj1 (decoding_never_panics dnsMessageBytes) 71). lia.
  - apply (proj1 (proj2 (decoding_never_panics dnsMessageBytes)) 71). lia.
Defined.

Lemma parseDNSMsg_counts_witness :
  parseDNSMsg dnsMessageBytes = Ok (referenceMessage, None) /\
  len (question referenceMessage) = 1 /\ len (answer referenceMessage) = 2 /\
  len (ns referenceMessage) = 0 /\ len (extra referenceMessage) = 0.
Proof.
  split; [vm_compute; reflexivity|].
  destruct (proj1 (parseDNSMsg_counts dnsMessageBytes referenceMessage None
                     ltac:(vm_compute; reflexivity)) eq_refl)
    as (Hq & Ha & Hn & Hx & _).
  repeat split; assumption.
Defined.

(** * Further properties of the decoder *)

(** ** Names as lists of labels *)

Lemma reaches_init_in_range data ic st b :
  reaches data ic (initState ic) st ->
  index data (currentReadPos st) = Some b ->
  0 <= ic < len data.
Proof.
  intros Hreach Hb.
  apply reaches_inv in Hreach as [<-|(st1 & Hstep & _)].
  - apply index_Some_inv in Hb. exact Hb.
  - apply loopBody_Next_inv in Hstep as (x & Hx & _).
    apply index_Some_inv in Hx. exact Hx.
Qed.

Lemma decodes_getDomainName data ic ls off hops :
  decodes data ic ls off hops ->
  getDomainName data ic = Ok (String.concat "." ls, off, None).
Proof.
  intros (st & Hreach & (b & Hb & Hzero) & <- & <- & ->).
  rewrite (getDomainName_from _ _ _ Hreach), (loopBody_zero _ _ _ _ Hb Hzero).
  simpl. unfold afterLoop. simpl.
  now destruct (0 <? pointerFollowCount st).
Qed.

Lemma getDomainName_decodes data ic name off :
  getDomainName data ic = Ok (name, off, None) ->
  exists ls hops, decodes data ic ls off hops /\ name = String.concat "." ls.
Proof.
  intros Hget.
  destruct (getDomainName_end data ic) as (st & Hreach & Hstop & Hfin).
  rewrite Hget in Hfin.
  destruct (loopBody data ic st) as [st'|st'|[[n o] e]|] eqn:Hb;
    simpl in Hfin; try discriminate Hfin.
  - apply loopBody_Break_inv in Hb as [Hzero ->].
    unfold afterLoop in Hfin. simpl in Hfin.
    exists (labels st), (pointerFollowCount st). split.
    + exists st. repeat (split; [first [assumption | reflexivity]|]).
      destruct (0 <? pointerFollowCount st); now injection Hfin as _ ->.
    + destruct (0 <? pointerFollowCount st); now injection Hfin as -> _.
  - injection Hfin as <- <- <-.
    apply loopBody_Return_inv in Hb as [(? & _)|(? & ? & _)]; discriminate.
Qed.

Lemma string_of_list_byte_length (l : list byte) :
  String.length (string_of_list_byte l) = length l.
Proof.
  unfold string_of_list_byte. induction l as [|b l IH]; simpl; [reflexivity|].
  now rewrite IH.
Qed.

Lemma label_size_bound (b : byte) :
  Z.land (uint8 b) 0xC0 = 0 -> uint8 b < 64.
Proof. destruct b; vm_compute; congruence. Qed.

Lemma reaches_labels_sized data ic st :
  reaches data ic (initState ic) st ->
  Forall (fun l => (1 <= String.length l <= 63)%nat) (labels st).
Proof.
  induction 1 as [|b1 b2 Hab IH Hstep]; [constructor|].
  apply loopBody_Next_inv in Hstep
    as (x & Hx & [(Htag & Hpos & _ & l & Hl & ->)|(_ & _ & x2 & _ & _ & ->)]);
    simpl; [|exact IH].
  apply Forall_app. split; [exact IH|]. constructor; [|constructor].
  apply slice_length in Hl. apply label_size_bound in Htag.
  rewrite string_of_list_byte_length. unfold len in Hl. lia.
Qed.

(** ** Reading the same bytes behind a prefix *)

Lemma loopBody_graft_Next data ic ic' pre k after st st2 :
  0 <= k -> 0 <= pointerFollowCount st ->
  loopBody data ic st = Next st2 ->
  pointerFollowCount st2 + k <= 10 ->
  loopBody data ic' (graft pre k after st) = Next (graft pre k after st2).
Proof.
  intros Hk Hc Hstep Hcap.
  apply loopBody_Next_inv in Hstep
    as (x & Hx & [(Htag & Hpos & Hfit & l & Hl & ->)
                 |(Htag & _ & x2 & Hx2 & Hd & ->)]).
  - destruct (loopBody_label data ic' (graft pre k after st) x)
      as (l' & Hl' & ->); simpl; try assumption; try lia.
    simpl in Hl'. rewrite Hl in Hl'. injection Hl' as <-.
    unfold graft; simpl. now rewrite app_assoc.
  - simpl in Hcap. pose proof (index_Some_inv _ _ _ Hx2).
    rewrite (loopBody_pointer data ic' (graft pre k after st) x Hx Htag).
    cbv zeta. simpl.
    replace (10 <? pointerFollowCount st + k + 1) with false by lia.
    replace (len data <=? currentReadPos st + 1) with false by lia.
    rewrite Hx2.
    match goal with |- context [(?d <? 0) || (len data <=? ?d)] =>
      replace ((d <? 0) || (len data <=? d)) with false by lia end.
    unfold graft; simpl. f_equal. f_equal; [lia|].
    destruct (Z.eqb_spec k 0) as [->|Hk0].
    + now rewrite Z.add_0_r.
    + now replace (pointerFollowCount st + k =? 0) with false by lia.
Qed.

Lemma reaches_graft data ic ic' pre k after st st2 :
  0 <= k -> 0 <= pointerFollowCount st ->
  reaches data ic st st2 ->
  pointerFollowCount st2 + k <= 10 ->
  reaches data ic' (graft pre k after st) (graft pre k after st2).
Proof.
  intros Hk Hc Hreach. induction Hreach as [|b1 b2 Hab IH Hstep]; intros Hcap.
  - apply reaches_here.
  - assert (pointerFollowCount b1 <= pointerFollowCount b2) as Hmono.
    { eapply reaches_count_mono, reaches_next;
        [apply reaches_here | exact Hstep]. }
    eapply reaches_next; [apply IH; lia|].
    eapply loopBody_graft_Next; try eassumption.
    pose proof (reaches_count_mono _ _ _ _ Hab). lia.
Qed.

(** ** How names compose *)

Lemma decodes_root data p b :
  index data p = Some b -> uint8 b = 0 -> decodes data p [] (p + 1) 0.
Proof.
  intros Hb Hzero. exists (initState p).
  split; [apply reaches_here|]. split; [eauto|]. repeat split.
Qed.

Lemma decodes_label data p b l ls off hops :
  index data p = Some b ->
  uint8 b <> 0 -> Z.land (uint8 b) 0xC0 = 0 ->
  slice data (p + 1) (p + 1 + uint8 b) = Some l ->
  decodes data (p + 1 + uint8 b) ls off hops ->
  decodes data p (string_of_list_byte l :: ls) off hops.
Proof.
  intros Hb Hnz Htag Hl (st & Hreach & (z & Hz & Hzero) & <- & <- & ->).
  pose proof (reaches_init_in_range _ _ _ _ Hreach Hz) as Hq.
  destruct (reaches_init_inv _ _ _ Hreach) as (Hc & _).
  destruct (loopBody_label data p (initState p) b) as (l' & Hl' & Hstep);
    simpl; try assumption; try lia.
  simpl in Hl'. rewrite Hl in Hl'. injection Hl' as <-.
  exists (graft [string_of_list_byte l] 0 0 st).
  split.
  { eapply reaches_first; [exact Hstep|].
    apply (reaches_graft data (p + 1 + uint8 b) p
             [string_of_list_byte l] 0 0 (initState (p + 1 + uint8 b)) st);
      simpl; try lia. exact Hreach. }
  simpl. split; [eauto|]. rewrite Z.add_0_r. repeat split.
Qed.

Lemma destinationAt_inv data p d :
  destinationAt data p = Some d ->
  exists b b2, index data p = Some b /\ index data (p + 1) = Some b2 /\
               d = pointerDestination (uint8 b) (uint8 b2).
Proof.
  unfold destinationAt.
  destruct (index data p) as [b|]; [|discriminate].
  destruct (index data (p + 1)) as [b2|]; [|discriminate].
  intros [= <-]. eauto.
Qed.

(** The first step of a decoding that starts at a pointer. *)
Lemma loopBody_first_pointer data p d :
  isPointerAt data p = true -> destinationAt data p = Some d ->
  0 <= d < len data ->
  loopBody data p (initState p) = Next (graft [] 1 (p + 2) (initState d)).
Proof.
  intros Hptr Hd Hin.
  apply isPointerAt_inv in Hptr as (b & Hb & Htag).
  apply destinationAt_inv in Hd as (b' & b2 & Hb' & Hb2 & ->).
  rewrite Hb in Hb'. injection Hb' as <-.
  pose proof (index_Some_inv _ _ _ Hb2).
  rewrite (loopBody_pointer data p (initState p) b Hb Htag). cbv zeta. simpl.
  replace (len data <=? p + 1) with false by lia. rewrite Hb2.
  match goal with |- context [(?d <? 0) || (len data <=? ?d)] =>
    replace ((d <? 0) || (len data <=? d)) with false by lia end.
  unfold graft; simpl. do 2 f_equal. lia.
Qed.

Lemma decodes_pointer data p d ls off hops :
  isPointerAt data p = true -> destinationAt data p = Some d ->
  decodes data d ls off hops -> hops <= 9 ->
  decodes data p ls (p + 2) (hops + 1).
Proof.
  intros Hptr Hd (st & Hreach & (z & Hz & Hzero) & <- & <- & ->) Hcap.
  pose proof (reaches_init_in_range _ _ _ _ Hreach Hz) as Hin.
  destruct (reaches_init_inv _ _ _ Hreach) as (Hc & _).
  exists (graft [] 1 (p + 2) st). split.
  { eapply reaches_first; [exact (loopBody_first_pointer data p d Hptr Hd Hin)|].
    apply (reaches_graft data d p [] 1 (p + 2) (initState d) st);
      simpl; try lia. exact Hreach. }
  simpl. split; [eauto|]. split; [reflexivity|]. split; [reflexivity|].
  now replace (0 <? pointerFollowCount st + 1) with true by lia.
Qed.

Lemma reaches_hop_before data ic st :
  reaches data ic (initState ic) st -> 0 < pointerFollowCount st ->
  exists st', reaches data ic (initState ic) st' /\
              pointerFollowCount st' = pointerFollowCount st - 1 /\
              isPointerAt data (currentReadPos st') = true.
Proof.
  induction 1 as [|b1 b2 Hab IH Hstep]; simpl; [lia|]. intros Hpos.
  apply loopBody_Next_inv in Hstep
    as (x & Hx & [(_ & _ & _ & l & _ & ->)|(Htag & _ & x2 & _ & _ & ->)]);
    simpl in *.
  - now apply IH.
  - exists b1. split; [assumption|]. split; [lia|].
    eapply isPointerAt_intro; eassumption.
Qed.

Lemma pointer_to_ten_hops data p d ls off :
  isPointerAt data p = true -> destinationAt data p = Some d ->
  decodes data d ls off 10 ->
  getDomainName data p = Ok (sentinel, p + 2, Some ErrTooManyPointers).
Proof.
  intros Hptr Hd (st & Hreach & (z & Hz & Hzero) & _ & Hten & _).
  pose proof (reaches_init_in_range _ _ _ _ Hreach Hz) as Hin.
  destruct (reaches_hop_before _ _ _ Hreach) as (st9 & Hreach9 & Hnine & Hp9);
    [lia|].
  assert (reaches data p (initState p) (graft [] 1 (p + 2) st9)) as Hgraft.
  { eapply reaches_first; [exact (loopBody_first_pointer data p d Hptr Hd Hin)|].
    apply (reaches_graft data d p [] 1 (p + 2) (initState d) st9);
      simpl; try lia. exact Hreach9. }
  apply isPointerAt_inv in Hp9 as (b9 & Hb9 & Htag9).
  apply isPointerAt_inv in Hptr as (b & Hb & _). apply index_Some_inv in Hb.
  rewrite (getDomainName_from _ _ _ Hgraft),
    (loopBody_pointer data p (graft [] 1 (p + 2) st9) b9 Hb9 Htag9).
  cbv zeta. simpl.
  replace (10 <? pointerFollowCount st9 + 1 + 1) with true by lia.
  replace (pointerFollowCount st9 + 1 =? 0) with false by lia.
  replace (p + 2 =? 0) with false by lia. reflexivity.
Qed.

(** X1. A successful [getDomainName] is a decoding that comes to a zero
    byte, and conversely; the name is the labels read, joined by dots;
    every label is 1 to 63 bytes long and at most 10 pointers were
    followed. *)
Theorem getDomainName_success_labels data ic name off :
  getDomainName data ic = Ok (name, off, None) <->
  exists ls hops,
    decodes data ic ls off hops /\ name = String.concat "." ls /\
    Forall (fun l => (1 <= String.length l <= 63)%nat) ls /\
    0 <= hops <= 10.
Proof.
  split.
  - intros Hget.
    destruct (getDomainName_decodes _ _ _ _ Hget) as (ls & hops & Hdec & ->).
    exists ls, hops. split; [assumption|]. split; [reflexivity|].
    destruct Hdec as (st & Hreach & _ & <- & <- & _).
    split; [exact (reaches_labels_sized _ _ _ Hreach)|].
    apply (reaches_init_inv _ _ _ Hreach).
  - intros (ls & hops & Hdec & -> & _). eapply decodes_getDomainName, Hdec.
Qed.

(** X2. A label in front of a name: when the name behind the label at [p]
    decodes to the labels [ls], the name at [p] decodes to the label
    followed by [ls], with the same resume offset and the same number of
    pointers followed. *)
Theorem getDomainName_label_then_name data p b l ls off hops :
  index data p = Some b ->
  uint8 b <> 0 -> Z.land (uint8 b) 0xC0 = 0 ->
  slice data (p + 1) (p + 1 + uint8 b) = Some l ->
  decodes data (p + 1 + uint8 b) ls off hops ->
  decodes data p (string_of_list_byte l :: ls) off hops /\
  getDomainName data (p + 1 + uint8 b)
    = Ok (String.concat "." ls, off, None) /\
  getDomainName data p
    = Ok (String.concat "." (string_of_list_byte l :: ls), off, None).
Proof.
  intros Hb Hnz Htag Hl Hdec.
  pose proof (decodes_label _ _ _ _ _ _ _ Hb Hnz Htag Hl Hdec) as Hdec'.
  split; [assumption|]. split; now apply decodes_getDomainName in Hdec, Hdec'.
Qed.

(** X3. A pointer to a name: when the name at the destination [d] of the
    pointer at [p] decodes having followed at most 9 pointers, the name at
    [p] decodes to the same labels and resumes just behind the pointer; when
    the name at [d] needed all 10 pointers, the name at [p] fails on the hop
    cap although the name at [d] decodes. *)
Theorem getDomainName_pointer_to_name data p d ls off hops :
  isPointerAt data p = true -> destinationAt data p = Some d ->
  decodes data d ls off hops ->
  (hops <= 9 ->
     decodes data p ls (p + 2) (hops + 1) /\
     getDomainName data p = Ok (String.concat "." ls, p + 2, None)) /\
  (hops = 10 ->
     getDomainName data d = Ok (String.concat "." ls, off, None) /\
     getDomainName data p =
       Ok ("Too many compression pointers", p + 2, Some ErrTooManyPointers)).
Proof.
  intros Hptr Hd Hdec. split.
  - intros Hcap.
    pose proof (decodes_pointer _ _ _ _ _ _ Hptr Hd Hdec Hcap) as Hdec'.
    split; [assumption|]. now apply decodes_getDomainName in Hdec'.
  - intros ->. split; [now apply decodes_getDomainName in Hdec|].
    eapply pointer_to_ten_hops; eassumption.
Qed.

(** ** Names in wire form *)

Lemma uint8_lengthByte (l : list byte) :
  len l < 256 -> uint8 (lengthByte l) = len l.
Proof.
  intros H. unfold lengthByte, uint8, len in *.
  destruct (Byte.of_N (N.of_nat (length l))) as [b|] eqn:Hb.
  - apply Byte.to_of_N in Hb. rewrite Hb. lia.
  - apply Byte.of_N_None_iff in Hb. lia.
Qed.

Lemma small_byte_is_label (b : byte) :
  uint8 b < 64 -> Z.land (uint8 b) 0xC0 = 0.
Proof. destruct b; vm_compute; congruence. Qed.

Lemma index_middle {A} (pre rest : list A) (x : A) :
  index (pre ++ x :: rest) (len pre) = Some x.
Proof.
  unfold index.
  destruct ((0 <=? len pre) && (len pre <? len (pre ++ x :: rest))) eqn:E.
  - unfold len. rewrite Nat2Z.id. now apply list_lookup_middle.
  - unfold len in E. rewrite length_app in E.
    change (length (x :: rest)) with (S (length rest)) in E.
    exfalso. apply andb_false_iff in E as [E|E];
      [apply Z.leb_gt in E | apply Z.ltb_ge in E]; lia.
Qed.

Lemma slice_middle {A} (pre l rest : list A) :
  slice (pre ++ l ++ rest) (len pre) (len pre + len l) = Some l.
Proof.
  rewrite slice_in_range.
  - unfold len. f_equal.
    replace (Z.to_nat (Z.of_nat (length pre) + Z.of_nat (length l)
                       - Z.of_nat (length pre))) with (length l) by lia.
    rewrite Nat2Z.id, drop_app_length. apply take_app_length.
  - pose proof (len_nonneg pre). pose proof (len_nonneg l). lia.
  - unfold len. rewrite !length_app. lia.
Qed.

Lemma decodes_wireLabels (ls : list (list byte)) :
  Forall (fun l => 1 <= len l <= 63) ls ->
  forall pre rest tail off hops,
    decodes (pre ++ wireLabels ls ++ rest) (len pre + len (wireLabels ls))
            tail off hops ->
    decodes (pre ++ wireLabels ls ++ rest) (len pre)
            (map string_of_list_byte ls ++ tail) off hops.
Proof.
  induction 1 as [|l ls Hl Hls IH]; intros pre rest tail off hops Hdec.
  - simpl in *. unfold len in Hdec at 2. simpl in Hdec.
    now rewrite Z.add_0_r in Hdec.
  - simpl wireLabels in *.
    pose proof (uint8_lengthByte l ltac:(lia)) as Hlen.
    assert (pre ++ (lengthByte l :: l ++ wireLabels ls) ++ rest
            = (pre ++ lengthByte l :: l) ++ wireLabels ls ++ rest) as Hdata.
    { now rewrite <- !app_assoc, <- !app_comm_cons, <- !app_assoc. }
    assert (pre ++ (lengthByte l :: l ++ wireLabels ls) ++ rest
            = (pre ++ [lengthByte l]) ++ l ++ wireLabels ls ++ rest)
      as Hdata2.
    { rewrite <- (app_assoc pre [lengthByte l]). simpl.
      now rewrite <- app_assoc. }
    assert (len (pre ++ lengthByte l :: l) = len pre + 1 + len l) as Hpre.
    { unfold len. rewrite length_app. simpl. lia. }
    assert (len (pre ++ [lengthByte l]) = len pre + 1) as Hpre1.
    { unfold len. rewrite length_app. simpl. lia. }
    assert (len (lengthByte l :: l ++ wireLabels ls)
            = 1 + len l + len (wireLabels ls)) as Hwhole.
    { unfold len. simpl. rewrite length_app. lia. }
    remember (pre ++ (lengthByte l :: l ++ wireLabels ls) ++ rest) as data
      eqn:Edata.
    change (map string_of_list_byte (l :: ls) ++ tail)
      with (string_of_list_byte l :: (map string_of_list_byte ls ++ tail)).
    apply (decodes_label data (len pre) (lengthByte l) l).
    + subst data.
      apply (index_middle pre ((l ++ wireLabels ls) ++ rest) (lengthByte l)).
    + lia.
    + apply small_byte_is_label. lia.
    + rewrite Hlen. subst data. rewrite Hdata2, <- Hpre1. apply slice_middle.
    + rewrite Hlen. subst data. rewrite Hdata, <- Hpre. apply IH.
      rewrite Hpre, <- Hdata.
      replace (len pre + 1 + len l + len (wireLabels ls))
        with (len pre + len (lengthByte l :: l ++ wireLabels ls)) by lia.
      exact Hdec.
Qed.

(** X4. A name that is not compressed: labels of 1 to 63 bytes, each
    behind its length byte, then a zero byte.  Wherever it stands in a
    buffer, [getDomainName] returns the labels joined by dots and the offset
    just behind the zero byte. *)
Theorem getDomainName_wireName (ls : list (list byte)) pre rest :
  Forall (fun l => 1 <= len l <= 63) ls ->
  getDomainName (pre ++ wireName ls ++ rest) (len pre)
    = Ok (String.concat "." (map string_of_list_byte ls),
          len pre + len (wireName ls), None).
Proof.
  intros Hls.
  apply (decodes_getDomainName _ _ _ _ 0).
  unfold wireName. rewrite <- app_assoc.
  rewrite <- (app_nil_r (map string_of_list_byte ls)).
  apply decodes_wireLabels; [assumption|].
  replace (len pre + len (wireLabels ls ++ [x00]))
    with (len pre + len (wireLabels ls) + 1)
    by (unfold len; rewrite length_app; simpl; lia).
  apply (decodes_root _ _ x00); [|reflexivity].
  rewrite app_assoc.
  replace (len pre + len (wireLabels ls)) with (len (pre ++ wireLabels ls))
    by (unfold len; rewrite length_app; lia).
  apply index_middle.
Qed.

(** X5. A compressed name: labels, then a pointer.  When the name at the
    destination of the pointer decodes to [tail] having followed at most 9
    pointers, [getDomainName] returns the labels followed by [tail], joined
    by dots, and the offset just behind the two bytes of the pointer. *)
Theorem getDomainName_wireLabels_pointer (ls : list (list byte))
    pre hi lo rest d tail off hops :
  Forall (fun l => 1 <= len l <= 63) ls ->
  Z.land (uint8 hi) 0xC0 = 0xC0 ->
  pointerDestination (uint8 hi) (uint8 lo) = d ->
  decodes (pre ++ wireLabels ls ++ hi :: lo :: rest) d tail off hops ->
  hops <= 9 ->
  getDomainName (pre ++ wireLabels ls ++ hi :: lo :: rest) (len pre)
    = Ok (String.concat "." (map string_of_list_byte ls ++ tail),
          len pre + len (wireLabels ls) + 2, None).
Proof.
  intros Hls Htag Hd Hdec Hcap.
  apply (decodes_getDomainName _ _ _ _ (hops + 1)).
  apply decodes_wireLabels; [assumption|].
  set (data := pre ++ wireLabels ls ++ hi :: lo :: rest) in *.
  assert (index data (len pre + len (wireLabels ls)) = Some hi) as Hhi.
  { subst data. rewrite app_assoc.
    replace (len pre + len (wireLabels ls)) with (len (pre ++ wireLabels ls))
      by (unfold len; rewrite length_app; lia).
    apply index_middle. }
  assert (index data (len pre + len (wireLabels ls) + 1) = Some lo) as Hlo.
  { subst data.
    replace (pre ++ wireLabels ls ++ hi :: lo :: rest)
      with ((pre ++ wireLabels ls ++ [hi]) ++ lo :: rest)
      by (now rewrite <- !app_assoc).
    replace (len pre + len (wireLabels ls) + 1)
      with (len (pre ++ wireLabels ls ++ [hi]))
      by (unfold len; rewrite !length_app; simpl; lia).
    apply index_middle. }
  apply (decodes_pointer data _ d tail off hops); try assumption.
  - eapply isPointerAt_intro; eassumption.
  - unfold destinationAt. now rewrite Hhi, Hlo, Hd.
Qed.

(** ** Where a decoding starts and how far it gets *)

Lemma getDomainName_ok_range data ic name off :
  getDomainName data ic = Ok (name, off, None) ->
  0 <= ic /\ ic < off <= len data.
Proof.
  intros Hget.
  destruct (getDomainName_decodes _ _ _ _ Hget)
    as (ls & hops & (st & Hreach & (z & Hz & _) & _ & <- & ->) & _).
  pose proof (reaches_init_in_range _ _ _ _ Hreach Hz) as Hic.
  destruct (reaches_init_inv _ _ _ Hreach) as (Hc & Hzero & Hpos).
  apply index_Some_inv in Hz.
  destruct (0 <? pointerFollowCount st) eqn:E.
  - destruct Hpos as (p & _ & -> & ? & _ & ?); lia.
  - destruct Hzero; lia.
Qed.

(** X6. A successful [getDomainName] started inside the buffer and moved
    on: the offset it returns lies behind the start offset and not behind
    the end of the buffer. *)
Theorem getDomainName_advances data ic name off :
  getDomainName data ic = Ok (name, off, None) ->
  0 <= ic < len data /\ ic < off <= len data.
Proof.
  intros Hget. pose proof (getDomainName_ok_range _ _ _ _ Hget). lia.
Qed.

(** X7. A start offset outside the buffer: a negative one makes the first
    index expression panic; one at or behind the end of the buffer,
    as with an empty buffer, gives the end-of-buffer error with the empty
    name and the offset unchanged. *)
Theorem getDomainName_start_outside data ic :
  (ic < 0 -> getDomainName data ic = Panic) /\
  (len data <= ic ->
     getDomainName data ic = Ok ("", ic, Some ErrEndOfBuffer)).
Proof.
  split; intros H; rewrite getDomainName_run, run_unfold.
  - assert (loopBody data ic (initState ic) = Crash) as ->; [|reflexivity].
    unfold loopBody. simpl. pose proof (len_nonneg data).
    replace (len data <=? ic) with false by lia.
    unfold index. now replace (0 <=? ic) with false by lia.
  - now rewrite loopBody_end.
Qed.

(** X8. Malformed tokens.  Wherever the decoding comes to a length byte
    whose two top bits are 01 or 10, to a label that runs over the end of
    the buffer, or, with fewer than 10 pointers followed, to a pointer whose
    second byte is missing, [getDomainName] fails with the error of that
    case, the empty name and the initial cursor. *)
Theorem getDomainName_malformed data ic st b :
  reaches data ic (initState ic) st ->
  index data (currentReadPos st) = Some b ->
  (Z.land (uint8 b) 0xC0 <> 0 -> Z.land (uint8 b) 0xC0 <> 0xC0 ->
     getDomainName data ic = Ok ("", ic, Some ErrInvalidLabelType)) /\
  (uint8 b <> 0 -> Z.land (uint8 b) 0xC0 = 0 ->
   len data < currentReadPos st + 1 + uint8 b ->
     getDomainName data ic = Ok ("", ic, Some ErrLabelExceeds)) /\
  (Z.land (uint8 b) 0xC0 = 0xC0 -> pointerFollowCount st < 10 ->
   currentReadPos st + 1 = len data ->
     getDomainName data ic = Ok ("", ic, Some ErrIncompletePointer)).
Proof.
  intros Hreach Hb. rewrite (getDomainName_from _ _ _ Hreach).
  split; [|split].
  - intros H0 H1. rewrite (loopBody_invalid _ _ _ b); try assumption.
    + reflexivity.
    + intros Hz. rewrite Hz in H0. now apply H0.
  - intros Hnz Htag Hover.
    now rewrite (loopBody_label_overrun _ _ _ b).
  - intros Htag Hc Hlast.
    rewrite (loopBody_pointer _ _ _ b Hb Htag). cbv zeta.
    replace (10 <? pointerFollowCount st + 1) with false by lia.
    now replace (len data <=? currentReadPos st + 1) with true by lia.
Qed.

(** ** Resource records *)

Lemma slice_Some_inv {A} (s t : list A) (lo hi : Z) :
  slice s lo hi = Some t -> 0 <= lo <= hi /\ hi <= len s.
Proof.
  unfold slice.
  destruct (0 <=? lo) eqn:H0; destruct (lo <=? hi) eqn:H1;
    destruct (hi <=? len s) eqn:H2; simpl; try discriminate.
  intros _. lia.
Qed.

Lemma copy_make (src : list byte) (n : Z) :
  len src = n -> copy (make x00 n) src = src.
Proof.
  intros <-. unfold copy, make, len.
  rewrite length_replicate, Nat2Z.id.
  rewrite take_ge, drop_ge, app_nil_r; try reflexivity; try lia.
  rewrite length_replicate. lia.
Qed.

(** X9. [parseRR] succeeds exactly on a name followed by the ten bytes of
    type, class, TTL and data length, big-endian, and by as many data
    bytes as the data length says.  The record holds these values, its
    data are those bytes, and the cursor returned is the offset behind
    them. *)
Theorem parseRR_success data c rr c' :
  parseRR data c = Ok (rr, c', None) <->
  exists c1,
    getDomainName data c = Ok (Name rr, c1, None) /\
    c1 + 10 <= len data /\
    readUint16 data c1 = Ok (Rrtype rr) /\
    readUint16 data (c1 + 2) = Ok (Class rr) /\
    readUint32 data (c1 + 4) = Ok (Ttl rr) /\
    readUint16 data (c1 + 8) = Ok (Rdlength rr) /\
    slice data (c1 + 10) (c1 + 10 + Rdlength rr) = Some (Data rr) /\
    len (Data rr) = Rdlength rr /\
    c' = c1 + 10 + Rdlength rr.
Proof.
  unfold parseRR. split.
  - destruct (getDomainName data c) as [[[name c1] e]| |] eqn:Hname;
      simpl; try discriminate.
    destruct e as [e|]; [discriminate|].
    destruct (getDomainName_ok_range _ _ _ _ Hname) as [Hc Hc1].
    destruct (len data <? c1 + 10) eqn:Hhdr; [discriminate|].
    replace (c1 + 2 + 2) with (c1 + 4) by lia.
    replace (c1 + 4 + 4) with (c1 + 8) by lia.
    replace (c1 + 8 + 2) with (c1 + 10) by lia.
    destruct (readUint16_ok data c1) as (ty & Hty & _); [lia..|].
    destruct (readUint16_ok data (c1 + 2)) as (cl & Hcl & _); [lia..|].
    destruct (readUint32_ok data (c1 + 4)) as (ttl & Httl & _); [lia..|].
    destruct (readUint16_ok data (c1 + 8)) as (rd & Hrd & Hrd0); [lia..|].
    rewrite Hty, Hcl, Httl, Hrd. simpl.
    destruct (len data <? c1 + 10 + rd) eqn:Hdata; [discriminate|].
    pose proof (slice_in_range data (c1 + 10) (c1 + 10 + rd)
                  ltac:(lia) ltac:(lia)) as Hsl.
    rewrite Hsl. simpl.
    pose proof (slice_length _ _ _ _ Hsl) as Hlen.
    rewrite copy_make by lia.
    intros [= <- <-]. simpl. exists c1.
    repeat (split; [first [assumption | reflexivity | lia]|]). reflexivity.
  - intros (c1 & Hname & Hhdr & Hty & Hcl & Httl & Hrd & Hsl & Hlen & ->).
    rewrite Hname. simpl.
    replace (len data <? c1 + 10) with false by lia.
    replace (c1 + 2 + 2) with (c1 + 4) by lia.
    replace (c1 + 4 + 4) with (c1 + 8) by lia.
    replace (c1 + 8 + 2) with (c1 + 10) by lia.
    rewrite Hty, Hcl, Httl, Hrd. simpl.
    destruct (slice_Some_inv _ _ _ _ Hsl) as [_ Hfit].
    replace (len data <? c1 + 10 + Rdlength rr) with false by lia.
    rewrite Hsl. simpl. rewrite copy_make by assumption.
    now destruct rr.
Qed.

(** X10. How [parseRR] fails.  A failure of the name is handed on with
    the name and offset [getDomainName] returned; fewer than ten bytes
    behind the name give the RR-header error at the offset behind the name;
    a data length that runs over the end of the buffer gives the rdata
    error at the offset of the data.  The record returned holds what was
    read until then and no data. *)
Theorem parseRR_failure data c name c1 :
  (forall e, getDomainName data c = Ok (name, c1, Some e) ->
     parseRR data c =
       Ok ({| Name := name; Rrtype := 0; Class := 0; Ttl := 0;
              Rdlength := 0; Data := [] |}, c1, Some e)) /\
  (getDomainName data c = Ok (name, c1, None) ->
   len data < c1 + 10 ->
     parseRR data c =
       Ok ({| Name := name; Rrtype := 0; Class := 0; Ttl := 0;
              Rdlength := 0; Data := [] |}, c1, Some ErrRRHeader)) /\
  (forall ty cl ttl rd,
     getDomainName data c = Ok (name, c1, None) ->
     readUint16 data c1 = Ok ty -> readUint16 data (c1 + 2) = Ok cl ->
     readUint32 data (c1 + 4) = Ok ttl -> readUint16 data (c1 + 8) = Ok rd ->
     c1 + 10 <= len data -> len data < c1 + 10 + rd ->
     parseRR data c =
       Ok ({| Name := name; Rrtype := ty; Class := cl; Ttl := ttl;
              Rdlength := rd; Data := [] |}, c1 + 10, Some ErrRdata)).
Proof.
  unfold parseRR. split; [|split].
  - intros e ->. reflexivity.
  - intros -> Hshort. simpl.
    now replace (len data <? c1 + 10) with true by lia.
  - intros ty cl ttl rd -> Hty Hcl Httl Hrd Hhdr Hover. simpl.
    replace (len data <? c1 + 10) with false by lia.
    replace (c1 + 2 + 2) with (c1 + 4) by lia.
    replace (c1 + 4 + 4) with (c1 + 8) by lia.
    replace (c1 + 8 + 2) with (c1 + 10) by lia.
    rewrite Hty, Hcl, Httl, Hrd. simpl.
    now replace (len data <? c1 + 10 + rd) with true by lia.
Qed.
